(** * Video translation tool: the pipeline of [autotranslate.py] and the
      processing block of [app.py]

    A shallow embedding of [VideoTranslator] (autotranslate.py), of the
    command-line entry point [main], and of the translation block of the
    Streamlit front-end (app.py).

    Python objects are modelled as follows.
    - [str]: [String.string], read as a sequence of code points below 256
      (Latin-1); on that range [str.lower] acts character by character.
    - Exceptions: the [pyexc] type separates the subclasses of [Exception]
      from [SystemExit], which [except Exception] does not catch.
    - Statements: a state-and-exception monad [M S A]; the state survives a
      raise, as the file system and the objects do in Python.
    - External libraries (whisper, deep_translator, edge_tts, moviepy,
      tempfile): a record of oracles giving the outcome of every call.
    - Messages printed or displayed are given without their emoji.
    - [print], [traceback.print_exc] and the Streamlit widgets are taken not
      to fail: standard output accepts every message.  The same goes for the
      saving of the upload on lines 198-199 of app.py.
    - Of what a library call does to the disk, only the files that the code
      names afterwards are recorded (the audio and video files, the directory
      of [tempfile.mkdtemp]); a download of the Whisper model is not. *)

From Stdlib Require Import String Ascii List Bool Arith Lia ZArith DecimalString.
Import ListNotations.
Local Open Scope string_scope.

Set Implicit Arguments.

(** ** Python strings *)

Module PyStr.

(** [chr(n).lower()] for a code point below 256: the letters A-Z and the
    Latin-1 capitals U+00C0-U+00DE (U+00D7, the multiplication sign, apart)
    move up by 32; every other code point stays. *)
Definition lower_char (c : ascii) : ascii :=
  let n := nat_of_ascii c in
  if (((65 <=? n) && (n <=? 90))
      || ((192 <=? n) && (n <=? 222) && negb (n =? 215)))%nat
  then ascii_of_nat (n + 32)
  else c.

(** [s.lower()] *)
Fixpoint lower (s : string) : string :=
  match s with
  | EmptyString => EmptyString
  | String c s' => String (lower_char c) (lower s')
  end.

(** [s.upper()] is only displayed by the front-end and is not modelled. *)

(** [s[:n]] *)
Definition take (n : nat) (s : string) : string := substring 0 n s.

(** [s[n:]] *)
Fixpoint drop (n : nat) (s : string) : string :=
  match n, s with
  | O, _ => s
  | S n', String _ s' => drop n' s'
  | S _, EmptyString => EmptyString
  end.

(** [s.startswith(p)] *)
Definition startswith (s p : string) : bool := prefix p s.

(** [s.endswith(p)] for a one-character [p] *)
Fixpoint endswith_char (s : string) (c : ascii) : bool :=
  match s with
  | EmptyString => false
  | String d EmptyString => Ascii.eqb d c
  | String _ s' => endswith_char s' c
  end.

(** [str(n)] for a non-negative integer *)
Definition of_nat (n : nat) : string := NilEmpty.string_of_uint (Nat.to_uint n).

(** [sep.join(parts)] *)
Fixpoint join (sep : string) (parts : list string) : string :=
  match parts with
  | [] => ""
  | [p] => p
  | p :: rest => p ++ sep ++ join sep rest
  end.

(** [s.split(c)] for a one-character separator: accumulates the current
    field in [cur] (reversed by appending at the end). *)
Fixpoint split_aux (c : ascii) (cur : string) (s : string) : list string :=
  match s with
  | EmptyString => [cur]
  | String d s' =>
      if Ascii.eqb d c then cur :: split_aux c "" s'
      else split_aux c (cur ++ String d "") s'
  end.

Definition split (c : ascii) (s : string) : list string := split_aux c "" s.

(** [s.rfind(c)] for a one-character [c]: [None] stands for -1. *)
Fixpoint rfind (c : ascii) (s : string) : option nat :=
  match s with
  | EmptyString => None
  | String d s' =>
      match rfind c s' with
      | Some i => Some (S i)
      | None => if Ascii.eqb d c then Some 0 else None
      end
  end.

End PyStr.

(** ** Dictionaries with string keys, in insertion order *)

Module PyDict.

Definition dict (V : Type) := list (string * V).

(** [d.get(k, default)] *)
Fixpoint get {V} (d : dict V) (k : string) (default : V) : V :=
  match d with
  | [] => default
  | (k', v) :: d' => if String.eqb k' k then v else get d' k default
  end.

(** [k in d] *)
Fixpoint mem {V} (k : string) (d : dict V) : bool :=
  match d with
  | [] => false
  | (k', _) :: d' => String.eqb k' k || mem k d'
  end.

End PyDict.

(** ** Paths: [os.path.join] and the part of [pathlib] that [main] uses *)

Module PyPath.

Definition slash : ascii := "/"%char.
Definition dot : ascii := "."%char.

(** [os.path.join(a, b)] on POSIX *)
Definition os_path_join (a b : string) : string :=
  if PyStr.startswith b "/" then b
  else if (String.eqb a "") || PyStr.endswith_char a slash then a ++ b
  else a ++ "/" ++ b.

(** A [PurePosixPath] (as in CPython up to 3.12): its root ("", "/" or "//")
    and its components. *)
Record Path := mkPath { root : string; parts : list string }.

(** The root of a raw path: two leading slashes exactly are kept, one or
    three and more give "/". *)
Definition parse_root (s : string) : string :=
  match s with
  | String "/" (String "/" (String "/" _)) => "/"
  | String "/" (String "/" _) => "//"
  | String "/" _ => "/"
  | _ => ""
  end.

Definition keep_part (p : string) : bool :=
  negb (String.eqb p "") && negb (String.eqb p ".").

(** [Path(s)]: empty and "." components are dropped. *)
Definition of_string (s : string) : Path :=
  mkPath (parse_root s) (filter keep_part (PyStr.split slash s)).

(** [str(p)] *)
Definition to_string (p : Path) : string :=
  match root p, parts p with
  | "", [] => "."
  | r, ps => r ++ PyStr.join "/" ps
  end.

(** [p.name] *)
Definition name (p : Path) : string := last (parts p) "".

(** [p.parent] *)
Definition parent (p : Path) : Path :=
  match parts p with
  | [] => p
  | _ => mkPath (root p) (removelast (parts p))
  end.

(** [p.suffix]: from the last dot of the name, when that dot is neither
    its first nor its last character. *)
Definition suffix (p : Path) : string :=
  let n := name p in
  match PyStr.rfind dot n with
  | Some i => if ((0 <? i) && (i <? String.length n - 1))%nat then PyStr.drop i n else ""
  | None => ""
  end.

(** [p.stem] *)
Definition stem (p : Path) : string :=
  let n := name p in
  match PyStr.rfind dot n with
  | Some i => if ((0 <? i) && (i <? String.length n - 1))%nat then PyStr.take i n else n
  | None => n
  end.

(** [p / s]: an absolute [s] replaces [p]. *)
Definition truediv (p : Path) (s : string) : Path :=
  let q := of_string s in
  if String.eqb (root q) "" then mkPath (root p) (parts p ++ parts q)
  else q.

End PyPath.

(** ** Exceptions, outcomes and the statement monad *)

(** A raised Python exception.  [Exc cls msg] is an instance of a subclass
    [cls] of [Exception] with [str(e) = msg]; [SystemExit code] is what
    [sys.exit(code)] raises, a [BaseException] outside [Exception]. *)
Inductive pyexc : Type :=
| Exc (cls msg : string)
| SystemExit (code : Z).

Inductive outcome (A : Type) : Type :=
| Return (a : A)
| Raise (e : pyexc).

Arguments Return {A} a.
Arguments Raise {A} e.

(** A statement over a state [S]: the final state is there after a raise
    too. *)
Definition M (S A : Type) : Type := S -> outcome A * S.

Definition ret {S A} (a : A) : M S A := fun s => (Return a, s).

Definition bind {S A B} (m : M S A) (k : A -> M S B) : M S B :=
  fun s =>
    match m s with
    | (Return a, s') => k a s'
    | (Raise e, s') => (Raise e, s')
    end.

Definition raise {S A} (e : pyexc) : M S A := fun s => (Raise e, s).

(** [sys.exit(code)] *)
Definition sys_exit {S A} (code : Z) : M S A := raise (SystemExit code).

(** The result of an external call, computed beforehand, enters the
    statement. *)
Definition lift_outcome {S A} (r : outcome A) : M S A := fun s => (r, s).

(** [try: body / except Exception as e: handler], where [handler] is given
    the class of [e] and [str(e)]; a [SystemExit] goes through. *)
Definition try_except {S A} (body : M S A) (handler : string -> string -> M S A) : M S A :=
  fun s =>
    match body s with
    | (Raise (Exc cls msg), s') => handler cls msg s'
    | r => r
    end.

(** [try: body / finally: final]: [final] runs on every exit of [body]; an
    exception of [final] replaces the outcome of [body]. *)
Definition try_finally {S A} (body : M S A) (final : M S unit) : M S A :=
  fun s =>
    match body s with
    | (r, s') =>
        match final s' with
        | (Return _, s'') => (r, s'')
        | (Raise e, s'') => (Raise e, s'')
        end
    end.

Declare Scope py_scope.
Delimit Scope py_scope with py.
Notation "x <- m ;; k" := (bind m (fun x => k))
  (at level 61, m at next level, right associativity) : py_scope.
Notation "m ;; k" := (bind m (fun _ => k))
  (at level 61, right associativity) : py_scope.
Notation "' pat <- m ;; k" := (bind m (fun x => match x with pat => k end))
  (at level 61, pat pattern, m at next level, right associativity) : py_scope.
Local Open Scope py_scope.

(** ** What a run can be observed to do *)

(** The stages of the pipeline: [extract_audio], [transcribe_audio],
    [translate_text], [generate_audio], [create_translated_video]. *)
Inductive stage : Type := Extract | Transcribe | Translate | Synthesize | Remux.

(** Calls into the external libraries. *)
Inductive call : Type :=
| Mkdtemp
| WhisperLoadModel (name : string)
| VideoFileClip (path : string)
| WriteAudiofile (path : string)
| ModelTranscribe (path : string)
| GoogleTranslate (target text : string)
| Communicate (text voice : string)
| ListVoices
| CommunicateSave (path : string)
| AudioFileClip (path : string)
| WriteVideofile (path temp_audiofile : string)
| Rmtree (path : string).

(** What is recorded of a run, in order: [print(line)];
    [traceback.print_exc()]; the swap of the default HTTPS context of [ssl]
    for the unverified one ([false]) and back ([true]); the entry into the
    method of a stage and its normal end; a call into an external library;
    [progress_bar.progress(percent)]; any other call of a Streamlit widget,
    with what it displays. *)
Inductive event : Type :=
| Print (line : string)
| PrintExc
| SslVerify (on : bool)
| Enter (s : stage)
| Leave (s : stage)
| Call (c : call)
| Progress (percent : nat)
| Widget (name arg : string).

(** ** The file system: the set of paths that exist *)

Module FS.

Definition t := list string.

(** [os.path.exists(p)] *)
Definition exists_ (p : string) (fs : t) : bool :=
  existsb (String.eqb p) fs.

(** [p] is [d] or lies under [d]. *)
Definition within (d p : string) : bool :=
  String.eqb p d || PyStr.startswith p (d ++ "/").

(** A file or directory comes into being. *)
Definition create (p : string) (fs : t) : t :=
  if exists_ p fs then fs else p :: fs.

(** [shutil.rmtree(d)] with its default [ignore_errors=False]: a missing
    [d] is an error, otherwise [d] goes with all that lies under it. *)
Definition rmtree (d : string) (fs : t) : outcome t :=
  if exists_ d fs
  then Return (filter (fun p => negb (within d p)) fs)
  else Raise (Exc "FileNotFoundError" ("[Errno 2] No such file or directory: '" ++ d ++ "'")).

End FS.

(** ** The external libraries *)

Definition whisper_model := string.

Record segment : Type := { seg_text : string }.

(** An entry of [edge_tts.list_voices()]. *)
Record voice_entry : Type := { Locale : string; ShortName : string }.

Record collaborators : Type := {
  (** [tempfile.mkdtemp()]: the name of the directory it creates *)
  mkdtemp : FS.t -> outcome string;
  (** [whisper.load_model(name)] *)
  whisper_load_model : string -> outcome whisper_model;
  (** [VideoFileClip(path)] *)
  video_file_clip : string -> outcome unit;
  (** [video.audio.write_audiofile(audio_path, logger=None)] on the clip of
      [video_path] *)
  write_audiofile : string -> string -> outcome unit;
  (** [model.transcribe(audio_path)]: the "text" and "segments" entries *)
  model_transcribe : whisper_model -> string -> outcome (string * list segment);
  (** [GoogleTranslator(source="auto", target=t).translate(text)] *)
  google_translate : string -> string -> outcome string;
  (** [edge_tts.Communicate(text, voice)] *)
  communicate : string -> string -> outcome unit;
  (** [edge_tts.list_voices()] *)
  list_voices : outcome (list voice_entry);
  (** [communicate.save(output_path)] for [Communicate(text, voice)] *)
  communicate_save : string -> string -> string -> outcome unit;
  (** [AudioFileClip(path)] *)
  audio_file_clip : string -> outcome unit;
  (** [final_video.write_videofile(output_path, ...)] for the video and the
      audio at the two first paths *)
  write_videofile : string -> string -> string -> outcome unit
}.

(** ** autotranslate.py: [class VideoTranslator] *)

(** The fields set by [__init__]; [None] is [None]. *)
Record VideoTranslator : Type := mkVideoTranslator {
  model : option whisper_model;
  temp_dir : option string
}.

(** [VideoTranslator()] *)
Definition new_VideoTranslator : VideoTranslator := mkVideoTranslator None None.

(** The state in which statements run: the object [self] whose fields they
    assign (a [VideoTranslator] for its methods, the session for the
    front-end), the file system and what has been observed so far. *)
Record state (O : Type) : Type := mkState {
  self : O;
  fs : FS.t;
  trace : list event
}.

Section Primitives.

Context {O : Type}.

Definition emit (e : event) : M (state O) unit :=
  fun s => (Return tt, mkState (self s) (fs s) (trace s ++ [e])%list).

Definition print (line : string) : M (state O) unit := emit (Print line).

Definition get_self : M (state O) O := fun s => (Return (self s), s).

Definition set_self (o : O) : M (state O) unit :=
  fun s => (Return tt, mkState o (fs s) (trace s)).

Definition get_fs : M (state O) FS.t := fun s => (Return (fs s), s).

Definition set_fs (f : FS.t) : M (state O) unit :=
  fun s => (Return tt, mkState (self s) f (trace s)).

(** An external call: it is recorded, then it returns or raises. *)
Definition external {A} (c : call) (r : outcome A) : M (state O) A :=
  emit (Call c) ;; lift_outcome r.

(** A file or directory written by an external call that returned. *)
Definition creates (p : string) : M (state O) unit :=
  f <- get_fs ;; set_fs (FS.create p f).

(** [os.path.exists(p)] *)
Definition os_path_exists (p : string) : M (state O) bool :=
  f <- get_fs ;; ret (FS.exists_ p f).

(** [shutil.rmtree(path)]; [None] as argument is a [TypeError]. *)
Definition shutil_rmtree (path : option string) : M (state O) unit :=
  match path with
  | Some d =>
      f <- get_fs ;;
      f' <- external (Rmtree d) (FS.rmtree d f) ;;
      set_fs f'
  | None => raise (Exc "TypeError" "expected str, bytes or os.PathLike object, not NoneType")
  end.

End Primitives.

Definition get_model : M (state VideoTranslator) (option whisper_model) :=
  o <- get_self ;; ret (model o).

Definition get_temp_dir : M (state VideoTranslator) (option string) :=
  o <- get_self ;; ret (temp_dir o).

(** [self.model = m] *)
Definition set_model (m : whisper_model) : M (state VideoTranslator) unit :=
  o <- get_self ;; set_self (mkVideoTranslator (Some m) (temp_dir o)).

(** [self.temp_dir = d] *)
Definition set_temp_dir (d : string) : M (state VideoTranslator) unit :=
  o <- get_self ;; set_self (mkVideoTranslator (model o) (Some d)).

(** [os.path.join(self.temp_dir, name)]; [None] as first argument is a
    [TypeError]. *)
Definition join_temp_dir (name : string) : M (state VideoTranslator) string :=
  d <- get_temp_dir ;;
  match d with
  | Some d => ret (PyPath.os_path_join d name)
  | None => raise (Exc "TypeError" "expected str, bytes or os.PathLike object, not NoneType")
  end.

(** The table of [generate_audio]. *)
Definition voice_map : PyDict.dict string :=
  [ ("en", "en-US-AriaNeural");
    ("es", "es-ES-ElviraNeural");
    ("fr", "fr-FR-DeniseNeural");
    ("de", "de-DE-KatjaNeural");
    ("it", "it-IT-ElsaNeural");
    ("pt", "pt-BR-FranciscaNeural");
    ("ru", "ru-RU-SvetlanaNeural");
    ("ja", "ja-JP-NanamiNeural");
    ("ko", "ko-KR-SunHiNeural");
    ("zh", "zh-CN-XiaoxiaoNeural");
    ("ar", "ar-SA-ZariyahNeural");
    ("hi", "hi-IN-SwaraNeural");
    ("nl", "nl-NL-ColetteNeural");
    ("pl", "pl-PL-AgnieszkaNeural");
    ("tr", "tr-TR-EmelNeural") ].

Definition default_voice : string := "en-US-AriaNeural".

(** [target_language[:2].lower() if len(target_language) >= 2 else
    target_language.lower()] *)
Definition lang_code_of (target_language : string) : string :=
  if (2 <=? String.length target_language)%nat
  then PyStr.lower (PyStr.take 2 target_language)
  else PyStr.lower target_language.

(** [[v for v in voices if v["Locale"].startswith(lang_code)]] *)
Definition matching_voices (voices : list voice_entry) (lang_code : string) : list voice_entry :=
  filter (fun v => PyStr.startswith (Locale v) lang_code) voices.

(** [f"{text[:100]}..." if len(text) > 100 else text], the text shown by
    [translate_video]. *)
Definition excerpt (n : nat) (text : string) : string :=
  if (n <? String.length text)%nat then PyStr.take n text ++ "..." else text.

Section Methods.

Variable env : collaborators.

(** [load_model]: the [try] has an [except] that prints and re-raises and
    a [finally] that restores the SSL context. *)
Definition load_model : M (state VideoTranslator) unit :=
  print "Loading Whisper model..." ;;
  emit (SslVerify false) ;;
  try_finally
    (try_except
       (m <- external (WhisperLoadModel "base") (whisper_load_model env "base") ;;
        set_model m ;;
        print "Model loaded successfully!")
       (fun cls msg =>
          print ("Error loading model: " ++ msg) ;;
          raise (Exc cls msg)))
    (emit (SslVerify true)).

Definition extract_audio (video_path : string) : M (state VideoTranslator) string :=
  emit (Enter Extract) ;;
  print ("Extracting audio from " ++ video_path ++ "...") ;;
  external (VideoFileClip video_path) (video_file_clip env video_path) ;;
  audio_path <- join_temp_dir "original_audio.wav" ;;
  external (WriteAudiofile audio_path) (write_audiofile env video_path audio_path) ;;
  creates audio_path ;;
  print "Audio extracted successfully!" ;;
  emit (Leave Extract) ;;
  ret audio_path.

Definition transcribe_audio (audio_path : string) : M (state VideoTranslator) (string * list segment) :=
  emit (Enter Transcribe) ;;
  print "Transcribing audio..." ;;
  m <- get_model ;;
  match m with
  | None => raise (Exc "AttributeError" "'NoneType' object has no attribute 'transcribe'")
  | Some m =>
      ' (text, segments) <- external (ModelTranscribe audio_path)
                              (model_transcribe env m audio_path) ;;
      print ("Transcription completed: " ++ PyStr.of_nat (List.length segments)
             ++ " segments found") ;;
      emit (Leave Transcribe) ;;
      ret (text, segments)
  end.

Definition translate_text (text target_language : string) : M (state VideoTranslator) string :=
  emit (Enter Translate) ;;
  print ("Translating to " ++ target_language ++ "...") ;;
  try_except
    (translated_text <- external (GoogleTranslate target_language text)
                          (google_translate env target_language text) ;;
     print "Translation completed!" ;;
     emit (Leave Translate) ;;
     ret translated_text)
    (fun _ msg =>
       print ("Translation error: " ++ msg) ;;
       sys_exit 1).

(** Lines 100-117 of [generate_audio]: from the language code to the
    voice. *)
Definition resolve_voice (text target_language : string) : M (state VideoTranslator) string :=
  let lang_code := lang_code_of target_language in
  let voice := PyDict.get voice_map lang_code default_voice in
  if String.eqb voice default_voice && negb (PyDict.mem lang_code voice_map)
  then
    external (Communicate text voice) (communicate env text voice) ;;
    voices <- external ListVoices (list_voices env) ;;
    match matching_voices voices lang_code with
    | v :: _ => ret (ShortName v)
    | [] =>
        print ("Warning: Using default English voice for " ++ target_language) ;;
        ret voice
    end
  else ret voice.

(** [generate_audio]; [asyncio.run] of this coroutine runs it to its end. *)
Definition generate_audio (text target_language output_path : string) : M (state VideoTranslator) unit :=
  emit (Enter Synthesize) ;;
  print ("Generating audio in " ++ target_language ++ "...") ;;
  voice <- resolve_voice text target_language ;;
  print ("Using voice: " ++ voice) ;;
  external (Communicate text voice) (communicate env text voice) ;;
  external (CommunicateSave output_path) (communicate_save env text voice output_path) ;;
  creates output_path ;;
  print "Audio generated successfully!" ;;
  emit (Leave Synthesize).

Definition create_translated_video
    (original_video_path new_audio_path output_path : string) : M (state VideoTranslator) unit :=
  emit (Enter Remux) ;;
  print "Creating translated video..." ;;
  external (VideoFileClip original_video_path) (video_file_clip env original_video_path) ;;
  external (AudioFileClip new_audio_path) (audio_file_clip env new_audio_path) ;;
  temp_audiofile <- join_temp_dir "temp_audio.m4a" ;;
  external (WriteVideofile output_path temp_audiofile)
    (write_videofile env original_video_path new_audio_path output_path) ;;
  creates output_path ;;
  print "Translated video created successfully!" ;;
  emit (Leave Remux).

(** "Create temp directory", lines 152-154 of [translate_video]. *)
Definition make_temp_dir : M (state VideoTranslator) unit :=
  f <- get_fs ;;
  d <- external Mkdtemp (mkdtemp env f) ;;
  creates d ;;
  set_temp_dir d ;;
  print ("Using temporary directory: " ++ d).

(** "Step 1: Load model", lines 156-158: [if not self.model:
    self.load_model()]. *)
Definition ensure_model : M (state VideoTranslator) unit :=
  m <- get_model ;;
  match m with None => load_model | Some _ => ret tt end.

Definition translate_video (video_path target_language output_path : string)
  : M (state VideoTranslator) unit :=
  try_except
    (make_temp_dir ;;
     ensure_model ;;
     audio_path <- extract_audio video_path ;;
     ' (text, segments) <- transcribe_audio audio_path ;;
     print ("Original text: " ++ excerpt 100 text) ;;
     translated_text <- translate_text text target_language ;;
     print ("Translated text: " ++ excerpt 100 translated_text) ;;
     new_audio_path <- join_temp_dir "translated_audio.mp3" ;;
     generate_audio translated_text target_language new_audio_path ;;
     create_translated_video video_path new_audio_path output_path ;;
     print "Cleaning up temporary files..." ;;
     d' <- get_temp_dir ;;
     shutil_rmtree d' ;;
     print ("Success! Translated video saved to: " ++ output_path))
    (fun _ msg =>
       print ("Error: " ++ msg) ;;
       emit PrintExc ;;
       sys_exit 1).

(** What [argparse] hands to [main]; an absent [-o] is [None]. *)
Record cli_args : Type := {
  input : string;
  language : string;
  output : option string
}.

(** [f"{input_path.stem}_translated_{language}{input_path.suffix}"] *)
Definition translated_name (input_path : PyPath.Path) (language : string) : string :=
  PyPath.stem input_path ++ "_translated_" ++ language ++ PyPath.suffix input_path.

(** Lines 227-232 of [main]: [not args.output] holds for [None] and for
    the empty string. *)
Definition output_path_of (args : cli_args) : PyPath.Path :=
  match output args with
  | None | Some "" =>
      let input_path := PyPath.of_string (input args) in
      PyPath.truediv (PyPath.parent input_path) (translated_name input_path (language args))
  | Some o => PyPath.of_string o
  end.

(** [main], after the arguments are parsed. *)
Definition main (args : cli_args) : M (state VideoTranslator) unit :=
  found <- os_path_exists (input args) ;;
  if negb found then
    print ("Error: Input file '" ++ input args ++ "' not found!") ;;
    sys_exit 1
  else
    let output_path := output_path_of args in
    set_self new_VideoTranslator ;;
    translate_video (input args) (language args) (PyPath.to_string output_path).

End Methods.

(** ** app.py: the block run by the "Translate Video" button *)

(** [st.session_state] *)
Record session : Type := mkSession {
  translator : option VideoTranslator;
  model_loaded : bool;
  processing : bool
}.

(** A method called on [st.session_state.translator]: the object is shared,
    so what the method assigns to [self] is seen by the session afterwards;
    on [None] the attribute lookup fails. *)
Definition on_translator {A} (m : M (state VideoTranslator) A) : M (state session) A :=
  fun s =>
    match translator (self s) with
    | None => (Raise (Exc "AttributeError" "'NoneType' object has no attribute"), s)
    | Some t =>
        match m (mkState t (fs s) (trace s)) with
        | (r, s') =>
            (r, mkState (mkSession (Some (self s')) (model_loaded (self s)) (processing (self s)))
                  (fs s') (trace s'))
        end
    end.

Definition set_translator (t : VideoTranslator) : M (state session) unit :=
  ss <- get_self ;; set_self (mkSession (Some t) (model_loaded ss) (processing ss)).

Definition set_model_loaded (b : bool) : M (state session) unit :=
  ss <- get_self ;; set_self (mkSession (translator ss) b (processing ss)).

Definition set_processing (b : bool) : M (state session) unit :=
  ss <- get_self ;; set_self (mkSession (translator ss) (model_loaded ss) b).

(** A call of a Streamlit widget. *)
Definition widget (name arg : string) : M (state session) unit := emit (Widget name arg).

(** [progress_bar.progress(percent)] *)
Definition progress (percent : nat) : M (state session) unit := emit (Progress percent).

(** Lines 290-291 of app.py: [if os.path.exists(temp_dir):
    shutil.rmtree(temp_dir)] *)
Definition cleanup_on_error {O} (temp_dir : string) : M (state O) unit :=
  found <- os_path_exists temp_dir ;;
  if found then shutil_rmtree (Some temp_dir) else ret tt.

Section App.

Variable env : collaborators.

(** Lines 188-295 of app.py, for the uploaded file of name [uploaded_name]
    once the button is pressed. *)
Definition translate_block (uploaded_name target_language : string) : M (state session) unit :=
  ss <- get_self ;;
  if negb (model_loaded ss) then
    widget "st.error" "Please load the Whisper model first using the sidebar button!"
  else
    set_processing true ;;
    f <- get_fs ;;
    temp_dir <- external Mkdtemp (mkdtemp env f) ;;
    creates temp_dir ;;
    let temp_video_path := PyPath.os_path_join temp_dir uploaded_name in
    creates temp_video_path ;;
    let input_path := PyPath.of_string uploaded_name in
    let output_filename := translated_name input_path target_language in
    let temp_output_path := PyPath.os_path_join temp_dir output_filename in
    try_finally
      (try_except
         (widget "st.progress" "0" ;;
          widget "st.empty" "" ;;
          ss <- get_self ;;
          match translator ss with
          | None =>
              set_translator new_VideoTranslator ;;
              (if negb (model_loaded ss) then
                 on_translator (load_model env) ;;
                 set_model_loaded true
               else ret tt)
          | Some _ => ret tt
          end ;;
          widget "status_text.text" "Step 1/6: Extracting audio from video..." ;;
          progress 10 ;;
          on_translator (set_temp_dir temp_dir) ;;
          audio_path <- on_translator (extract_audio env temp_video_path) ;;
          widget "status_text.text" "Step 2/6: Transcribing audio to text..." ;;
          progress 30 ;;
          ' (text, segments) <- on_translator (transcribe_audio env audio_path) ;;
          widget "st.expander" "View Transcription" ;;
          widget "st.write" "**Original Text:**" ;;
          widget "st.write" (excerpt 500 text) ;;
          widget "st.write" ("**Total segments:** " ++ PyStr.of_nat (List.length segments)) ;;
          widget "status_text.text" "Step 3/6: Translating text..." ;;
          progress 50 ;;
          translated_text <- on_translator (translate_text env text target_language) ;;
          widget "st.expander" "View Translation" ;;
          widget "st.write" "**Translated Text:**" ;;
          widget "st.write" (excerpt 500 translated_text) ;;
          widget "status_text.text" "Step 4/6: Generating translated audio..." ;;
          progress 70 ;;
          let new_audio_path := PyPath.os_path_join temp_dir "translated_audio.mp3" in
          on_translator (generate_audio env translated_text target_language new_audio_path) ;;
          widget "status_text.text" "Step 5/6: Creating translated video..." ;;
          progress 85 ;;
          on_translator (create_translated_video env temp_video_path new_audio_path
                           temp_output_path) ;;
          widget "status_text.text" "Step 6/6: Finalizing..." ;;
          progress 100 ;;
          found <- os_path_exists temp_output_path ;;
          if found then
            widget "st.success" "Translation completed successfully!" ;;
            widget "st.header" "Translated Video" ;;
            widget "st.video" temp_output_path ;;
            widget "st.download_button" output_filename ;;
            shutil_rmtree (Some temp_dir)
          else
            widget "st.error" "Output file not found. Please try again.")
         (fun _ msg =>
            widget "st.error" ("Error during translation: " ++ msg) ;;
            widget "st.expander" "Error Details" ;;
            widget "st.code" "traceback.format_exc()" ;;
            cleanup_on_error temp_dir))
      (set_processing false ;;
       widget "progress_bar.empty" "" ;;
       widget "status_text.empty" "").

End App.

(** ** Sample collaborators and inputs *)

Module Sample.

Definition catalog : list voice_entry :=
  [ {| Locale := "en-US"; ShortName := "en-US-AriaNeural" |};
    {| Locale := "sv-SE"; ShortName := "sv-SE-SofieNeural" |};
    {| Locale := "sv-SE"; ShortName := "sv-SE-MattiasNeural" |} ].

(** Every external call returns. *)
Definition all_fine : collaborators := {|
  mkdtemp := fun _ => Return "/tmp/tmpk3x9";
  whisper_load_model := fun _ => Return "base";
  video_file_clip := fun _ => Return tt;
  write_audiofile := fun _ _ => Return tt;
  model_transcribe := fun _ _ => Return ("hello world", [ {| seg_text := "hello world" |} ]);
  google_translate := fun _ _ => Return "hola mundo";
  communicate := fun _ _ => Return tt;
  list_voices := Return catalog;
  communicate_save := fun _ _ _ => Return tt;
  audio_file_clip := fun _ => Return tt;
  write_videofile := fun _ _ _ => Return tt
|}.

(** The one external call that is proper to stage [st] raises. *)
Definition failing_at (st : stage) : collaborators := {|
  mkdtemp := mkdtemp all_fine;
  whisper_load_model := whisper_load_model all_fine;
  video_file_clip := video_file_clip all_fine;
  write_audiofile := fun _ _ =>
    match st with
    | Extract => Raise (Exc "AttributeError" "'NoneType' object has no attribute 'write_audiofile'")
    | _ => Return tt
    end;
  model_transcribe := fun _ _ =>
    match st with
    | Transcribe => Raise (Exc "RuntimeError" "Failed to load audio")
    | _ => Return ("hello world", [ {| seg_text := "hello world" |} ])
    end;
  google_translate := fun _ _ =>
    match st with
    | Translate => Raise (Exc "RequestError" "Request exception can happen due to an api connection error.")
    | _ => Return "hola mundo"
    end;
  communicate := communicate all_fine;
  list_voices := list_voices all_fine;
  communicate_save := fun _ _ _ =>
    match st with
    | Synthesize => Raise (Exc "NoAudioReceived" "No audio was received.")
    | _ => Return tt
    end;
  audio_file_clip := audio_file_clip all_fine;
  write_videofile := fun _ _ _ =>
    match st with
    | Remux => Raise (Exc "OSError" "[Errno 28] No space left on device")
    | _ => Return tt
    end
|}.

(** A fresh [VideoTranslator()] next to the input video. *)
Definition start : state VideoTranslator :=
  mkState new_VideoTranslator ["/videos/clip.mp4"] [].

(** A translator whose model was loaded beforehand. *)
Definition loaded : state VideoTranslator :=
  mkState (mkVideoTranslator (Some "base") None) ["/videos/clip.mp4"] [].

(** [python autotranslate.py /videos/clip.mp4 -l es] *)
Definition no_output_option : cli_args :=
  {| input := "/videos/clip.mp4"; language := "es"; output := None |}.

(** The session of the front-end after "Load Whisper Model". *)
Definition ready : state session :=
  mkState (mkSession (Some (mkVideoTranslator (Some "base") None)) true false) [] [].

End Sample.

(** ** Observations on a trace *)

(** The stage marks. *)
Definition stage_mark (e : event) : list event :=
  match e with Enter _ | Leave _ => [e] | _ => [] end.

Definition stage_marks (t : list event) : list event := flat_map stage_mark t.

(** The marks of a complete pipeline. *)
Definition pipeline_marks : list event :=
  [ Enter Extract; Leave Extract;
    Enter Transcribe; Leave Transcribe;
    Enter Translate; Leave Translate;
    Enter Synthesize; Leave Synthesize;
    Enter Remux; Leave Remux ].

(** The loads of the transcription model among the stage marks. *)
Definition load_or_stage_mark (e : event) : list event :=
  match e with Call (WhisperLoadModel _) | Enter _ | Leave _ => [e] | _ => [] end.

Definition load_and_stage_marks (t : list event) : list event :=
  flat_map load_or_stage_mark t.

(** What [translate_video] is seen to load and to go through, from the
    state of [self.model] at the start. *)
Definition expected_loads_and_stages (m : option whisper_model) : list event :=
  match m with
  | None => Call (WhisperLoadModel "base") :: pipeline_marks
  | Some _ => pipeline_marks
  end.

(** The values given to [progress_bar.progress]. *)
Definition progress_value (e : event) : list nat :=
  match e with Progress n => [n] | _ => [] end.

Definition progress_values (t : list event) : list nat := flat_map progress_value t.

Definition checkpoints : list nat := [10; 30; 50; 70; 85; 100].

(** The success message of the front-end. *)
Definition success_banner : event := Widget "st.success" "Translation completed successfully!".

(** The progress updates and the success message. *)
Definition report_mark (e : event) : list event :=
  match e with
  | Progress _ => [e]
  | Widget name _ => if String.eqb name "st.success" then [e] else []
  | _ => []
  end.

Definition report_marks (t : list event) : list event := flat_map report_mark t.

(** The output paths given to [write_videofile]. *)
Definition written_video (e : event) : list string :=
  match e with Call (WriteVideofile p _) => [p] | _ => [] end.

Definition written_videos (t : list event) : list string := flat_map written_video t.

(** The calls of [edge_tts.list_voices]. *)
Definition catalog_fetch (e : event) : list unit :=
  match e with Call ListVoices => [tt] | _ => [] end.

Definition catalog_fetches (t : list event) : nat := List.length (flat_map catalog_fetch t).

(** [l] is an initial part of [full]. *)
Definition initial_part {A} (l full : list A) : Prop := exists rest, full = (l ++ rest)%list.

Section Emits.

Context {B : Type} (f : event -> list B).

(** [m] adds [full] to the observation [flat_map f] when it returns, and
    an initial part of [full] when it raises. *)
Definition emits {O A} (full : list B) (m : M (state O) A) : Prop :=
  forall s, exists new,
    flat_map f (trace (snd (m s))) = (flat_map f (trace s) ++ new)%list
    /\ match fst (m s) with
       | Return _ => new = full
       | Raise _ => initial_part new full
       end.

(** [m] adds an initial part of [full], whatever its outcome. *)
Definition emits_upto {O A} (full : list B) (m : M (state O) A) : Prop :=
  forall s, exists new,
    flat_map f (trace (snd (m s))) = (flat_map f (trace s) ++ new)%list
    /\ initial_part new full.

End Emits.

Section Keeps.

Variable d : string.

(** [m] leaves the path [d] in place. *)
Definition keeps {O A} (m : M (state O) A) : Prop :=
  forall s, FS.exists_ d (fs s) = true -> FS.exists_ d (fs (snd (m s))) = true.

(** [m] leaves the path [d] in place whenever it raises. *)
Definition keeps_when_raising {O A} (m : M (state O) A) : Prop :=
  forall s, FS.exists_ d (fs s) = true ->
    match fst (m s) with
    | Return _ => True
    | Raise _ => FS.exists_ d (fs (snd (m s))) = true
    end.

End Keeps.

(** ** Further observations *)

(** The swaps of the HTTPS context of [ssl]. *)
Definition ssl_mark (e : event) : list bool :=
  match e with SslVerify on => [on] | _ => [] end.

Definition ssl_marks (t : list event) : list bool := flat_map ssl_mark t.

(** The stage marks and the success message of the front-end. *)
Definition stage_or_success_mark (e : event) : list event :=
  match e with
  | Enter _ | Leave _ => [e]
  | Widget name _ => if String.eqb name "st.success" then [e] else []
  | _ => []
  end.

Definition stage_and_success_marks (t : list event) : list event :=
  flat_map stage_or_success_mark t.

(** The calls of [communicate.save]. *)
Definition save_mark (e : event) : list string :=
  match e with Call (CommunicateSave p) => [p] | _ => [] end.

Definition saves (t : list event) : list string := flat_map save_mark t.

(** ** Further sample collaborators *)

Module Faults.

(** [whisper.load_model] cannot fetch the model. *)
Definition loader_down : collaborators := {|
  mkdtemp := mkdtemp Sample.all_fine;
  whisper_load_model := fun _ => Raise (Exc "URLError" "certificate verify failed");
  video_file_clip := video_file_clip Sample.all_fine;
  write_audiofile := write_audiofile Sample.all_fine;
  model_transcribe := model_transcribe Sample.all_fine;
  google_translate := google_translate Sample.all_fine;
  communicate := communicate Sample.all_fine;
  list_voices := list_voices Sample.all_fine;
  communicate_save := communicate_save Sample.all_fine;
  audio_file_clip := audio_file_clip Sample.all_fine;
  write_videofile := write_videofile Sample.all_fine
|}.

(** [edge_tts.list_voices] cannot reach the service. *)
Definition catalog_down : collaborators := {|
  mkdtemp := mkdtemp Sample.all_fine;
  whisper_load_model := whisper_load_model Sample.all_fine;
  video_file_clip := video_file_clip Sample.all_fine;
  write_audiofile := write_audiofile Sample.all_fine;
  model_transcribe := model_transcribe Sample.all_fine;
  google_translate := google_translate Sample.all_fine;
  communicate := communicate Sample.all_fine;
  list_voices := Raise (Exc "ClientConnectorError" "Cannot connect to host");
  communicate_save := communicate_save Sample.all_fine;
  audio_file_clip := audio_file_clip Sample.all_fine;
  write_videofile := write_videofile Sample.all_fine
|}.

(** [tempfile.mkdtemp] finds no room. *)
Definition no_temp_dir : collaborators := {|
  mkdtemp := fun _ => Raise (Exc "OSError" "[Errno 28] No space left on device");
  whisper_load_model := whisper_load_model Sample.all_fine;
  video_file_clip := video_file_clip Sample.all_fine;
  write_audiofile := write_audiofile Sample.all_fine;
  model_transcribe := model_transcribe Sample.all_fine;
  google_translate := google_translate Sample.all_fine;
  communicate := communicate Sample.all_fine;
  list_voices := list_voices Sample.all_fine;
  communicate_save := communicate_save Sample.all_fine;
  audio_file_clip := audio_file_clip Sample.all_fine;
  write_videofile := write_videofile Sample.all_fine
|}.

End Faults.

(** ** Invariants of the methods *)

Section Invariant.

Variables (J : VideoTranslator -> Prop) (F : FS.t -> Prop).

(** The fields of [self] satisfy [J] and the file system [F]. *)
Definition holds (s : state VideoTranslator) : Prop := J (self s) /\ F (fs s).

(** [m] keeps the invariant, whatever its outcome. *)
Definition stable {A} (m : M (state VideoTranslator) A) : Prop :=
  forall s, holds s -> holds (snd (m s)).

(** Under the invariant [m] returns, and keeps the invariant. *)
Definition total {A} (m : M (state VideoTranslator) A) : Prop :=
  forall s, holds s -> (exists a, fst (m s) = Return a) /\ holds (snd (m s)).

End Invariant.

(** From a state in [P], [m] ends in [Q] whenever it returns. *)
Definition on_return {O A} (P : state O -> Prop) (m : M (state O) A) (Q : state O -> Prop)
  : Prop :=
  forall s, P s ->
    match fst (m s) with
    | Return _ => Q (snd (m s))
    | Raise _ => True
    end.

(** The path [p] exists. *)
Definition present (p : string) (f : FS.t) : Prop := FS.exists_ p f = true.

(** No condition on the file system. *)
Definition anything (f : FS.t) : Prop := True.

(** Nothing is left of the directory [d]; the path [out] is there unless it
    lay in [d]. *)
Definition cleaned_up (d out : string) (s : state VideoTranslator) : Prop :=
  (forall p, FS.within d p = true -> FS.exists_ p (fs s) = false)
  /\ (FS.within d out = false -> FS.exists_ out (fs s) = true).

(** [self.temp_dir] is [d]. *)
Definition has_temp_dir (d : string) (o : VideoTranslator) : Prop := temp_dir o = Some d.

(** [self.temp_dir] is [d] and a model is loaded. *)
Definition is_ready (d : string) (o : VideoTranslator) : Prop :=
  temp_dir o = Some d /\ exists m, model o = Some m.

(** Whatever it is called with, every external library returns. *)
Record cooperative (env : collaborators) : Prop := {
  coop_mkdtemp : forall f, exists d, mkdtemp env f = Return d;
  coop_load_model : forall n, exists m, whisper_load_model env n = Return m;
  coop_video_file_clip : forall p, exists u, video_file_clip env p = Return u;
  coop_write_audiofile : forall v p, exists u, write_audiofile env v p = Return u;
  coop_transcribe : forall m p, exists r, model_transcribe env m p = Return r;
  coop_translate : forall t x, exists r, google_translate env t x = Return r;
  coop_communicate : forall x v, exists u, communicate env x v = Return u;
  coop_list_voices : exists vs, list_voices env = Return vs;
  coop_save : forall x v p, exists u, communicate_save env x v p = Return u;
  coop_audio_file_clip : forall p, exists u, audio_file_clip env p = Return u;
  coop_write_videofile : forall v a p, exists u, write_videofile env v a p = Return u
}.


(** ** app.py: the sidebar and the session *)

(** Lines 77-82 of app.py, run when "Load Whisper Model" is pressed;
    [st.rerun()] on line 83 then ends the run of the script. *)
Definition load_button (env : collaborators) : M (state session) unit :=
  widget "st.spinner" "Loading Whisper model (this may take a minute on first run)..." ;;
  ss <- get_self ;;
  match translator ss with
  | None => set_translator new_VideoTranslator
  | Some _ => ret tt
  end ;;
  on_translator (load_model env) ;;
  set_model_loaded true ;;
  widget "st.success" "Model loaded!".

(** Lines 60-65 of app.py on the first run of a session. *)
Definition fresh_session : session := mkSession None false false.

(** [model_loaded] tells the truth: when it is set, the translator of the
    session is there and has a model. *)
Definition session_ready (ss : session) : Prop :=
  model_loaded ss = true -> exists t m, translator ss = Some t /\ model t = Some m.

(** The calls of [whisper.load_model]. *)
Definition load_mark (e : event) : list string :=
  match e with Call (WhisperLoadModel name) => [name] | _ => [] end.

Definition loads (t : list event) : list string := flat_map load_mark t.

(** Nothing is left of the directory [d]. *)
Definition gone (d : string) (f : FS.t) : Prop :=
  forall p, FS.within d p = true -> FS.exists_ p f = false.

(** The translator has a model. *)
Definition has_model (o : VideoTranslator) : Prop := exists m, model o = Some m.

(** The session has a translator, which has a model. *)
Definition translator_has_model (ss : session) : Prop :=
  exists t, translator ss = Some t /\ has_model t.

(** [m] keeps the property [J] of the session, whatever its outcome. *)
Definition session_always {A} (J : session -> Prop) (m : M (state session) A) : Prop :=
  forall s, J (self s) -> J (self (snd (m s))).

(** The session has a translator that is ready to work in [d], and [d]
    exists. *)
Definition usable (d : string) (s : state session) : Prop :=
  (exists t, translator (self s) = Some t /\ is_ready d t) /\ present d (fs s).

(** What the block shows and does last when it has succeeded. *)
Definition success_display (d out name : string) : list event :=
  [ Widget "st.success" "Translation completed successfully!";
    Widget "st.header" "Translated Video";
    Widget "st.video" out;
    Widget "st.download_button" name;
    Call (Rmtree d);
    Widget "progress_bar.empty" "";
    Widget "status_text.empty" "" ].

(** ** app.py: the languages on offer and the main area *)

(** The options of the selectbox, lines 148-152. *)
Definition language_options : list string :=
  [ "es"; "fr"; "de"; "it"; "pt"; "ru"; "ja"; "ko";
    "zh"; "ar"; "hi"; "nl"; "pl"; "tr"; "en"; "sv";
    "no"; "da"; "fi"; "cs"; "hu"; "ro"; "el"; "he" ].

(** [bool(s)] of a string. *)
Definition truthy (s : string) : bool := negb (String.eqb s "").

(** Lines 186-302 of app.py.  [uploaded_file] is [None] or the uploaded file,
    given by its name; [pressed] is what [st.button] returns. *)
Definition main_area (env : collaborators) (uploaded_file : option string)
    (target_language : string) (pressed : bool) : M (state session) unit :=
  if (match uploaded_file with Some _ => true | None => false end) && truthy target_language
  then
    widget "st.button" "Translate Video" ;;
    if pressed then
      match uploaded_file with
      | Some name => translate_block env name target_language
      | None => raise (Exc "AttributeError" "'NoneType' object has no attribute 'name'")
      end
    else ret tt
  else if (match uploaded_file with Some _ => false | None => true end) then
    widget "st.info" "Please upload a video file to get started!"
  else if negb (truthy target_language) then
    widget "st.info" "Please select a target language!"
  else
    ss <- get_self ;;
    if negb (model_loaded ss) then
      widget "st.warning"
        "Please load the Whisper model first using the button in the sidebar!"
    else ret tt.

(** The warnings shown. *)
Definition warning_mark (e : event) : list string :=
  match e with
  | Widget name arg => if String.eqb name "st.warning" then [arg] else []
  | _ => []
  end.

Definition warnings (t : list event) : list string := flat_map warning_mark t.

(** ** Further observations on a run *)

(** The progress updates, the stage marks and the success message of the
    front-end. *)
Definition checkpoint_mark (e : event) : list event :=
  match e with
  | Progress _ | Enter _ | Leave _ => [e]
  | Widget name _ => if String.eqb name "st.success" then [e] else []
  | _ => []
  end.

Definition checkpoint_marks (t : list event) : list event := flat_map checkpoint_mark t.

(** A complete run of the block: each value comes before the stage it
    announces, the last one after the last stage. *)
Definition block_marks : list event :=
  [ Progress 10; Enter Extract; Leave Extract;
    Progress 30; Enter Transcribe; Leave Transcribe;
    Progress 50; Enter Translate; Leave Translate;
    Progress 70; Enter Synthesize; Leave Synthesize;
    Progress 85; Enter Remux; Leave Remux;
    Progress 100; success_banner ].

(** The call of [tempfile.mkdtemp], the calls of [whisper.load_model] and the
    stage marks. *)
Definition setup_or_stage_mark (e : event) : list event :=
  match e with
  | Call Mkdtemp | Call (WhisperLoadModel _) | Enter _ | Leave _ => [e]
  | _ => []
  end.

Definition setup_and_stage_marks (t : list event) : list event :=
  flat_map setup_or_stage_mark t.

(** What [translate_video] is seen to set up and to go through, from the
    state of [self.model] at the start. *)
Definition expected_setup_and_stages (m : option whisper_model) : list event :=
  Call Mkdtemp :: expected_loads_and_stages m.

(** ** Python strings beyond Latin-1 *)

Module PyUnicode.

(** A [str] as the list of its code points. *)
Definition str := list N.

(** A string of code points below 256. *)
Definition of_string (s : string) : str := map N_of_ascii (list_ascii_of_string s).

(** [chr(c).lower()] for the code points that the model covers: those below
    256, and U+0130 (capital I with dot above), which lowers to the two code
    points U+0069 U+0307.  [None]: the model does not say. *)
Definition lower_point (c : N) : option str :=
  if (c <? 256)%N then Some [N_of_ascii (PyStr.lower_char (ascii_of_N c))]
  else if (c =? 304)%N then Some [105; 775]%N
  else None.

(** [s.lower()] *)
Fixpoint lower (s : str) : option str :=
  match s with
  | [] => Some []
  | c :: s' =>
      match lower_point c, lower s' with
      | Some a, Some b => Some (a ++ b)%list
      | _, _ => None
      end
  end.

Fixpoint eqb (a b : str) : bool :=
  match a, b with
  | [], [] => true
  | x :: a', y :: b' => (x =? y)%N && eqb a' b'
  | _, _ => false
  end.

(** [s.startswith(p)] *)
Fixpoint startswith (s p : str) : bool :=
  match p, s with
  | [], _ => true
  | y :: p', x :: s' => (x =? y)%N && startswith s' p'
  | _ :: _, [] => false
  end.

(** [target_language[:2].lower() if len(target_language) >= 2 else
    target_language.lower()] *)
Definition lang_code_of (target_language : str) : option str :=
  if (2 <=? List.length target_language)%nat
  then lower (firstn 2 target_language)
  else lower target_language.

(** [voice_map.get(code, default)] and [code in voice_map] *)
Definition get (code : str) (default : string) : string :=
  match find (fun kv => eqb (of_string (fst kv)) code) voice_map with
  | Some kv => snd kv
  | None => default
  end.

Definition mem (code : str) : bool :=
  existsb (fun kv => eqb (of_string (fst kv)) code) voice_map.

(** Lines 101-117 of [generate_audio], the voice chosen once
    [edge_tts.list_voices] has returned [voices]; [None] where the model
    does not say what [str.lower] gives. *)
Definition voice_for (voices : list voice_entry) (target_language : str) : option string :=
  match lang_code_of target_language with
  | None => None
  | Some lang_code =>
      let voice := get lang_code default_voice in
      if String.eqb voice default_voice && negb (mem lang_code) then
        match filter (fun v => startswith (of_string (Locale v)) lang_code) voices with
        | v :: _ => Some (ShortName v)
        | [] => Some voice
        end
      else Some voice
  end.

End PyUnicode.

(** * Properties *)

(** ** What a statement adds to an observation of the trace *)

Section EmitsRules.

Context {B : Type} (f : event -> list B).

Lemma initial_part_nil (l : list B) : initial_part [] l.
Proof. exists l. reflexivity. Qed.

Lemma initial_part_refl (l : list B) : initial_part l l.
Proof. exists []. symmetry. apply app_nil_r. Qed.

Lemma initial_part_app (l l1 l2 : list B) :
  initial_part l l1 -> initial_part l (l1 ++ l2).
Proof. intros [r ->]. exists (r ++ l2)%list. symmetry. apply app_assoc. Qed.

Lemma initial_part_cons_app (l0 l l2 : list B) :
  initial_part l l2 -> initial_part (l0 ++ l) (l0 ++ l2).
Proof. intros [r ->]. exists r. apply app_assoc. Qed.

Lemma initial_part_of_nil (l : list B) : initial_part l [] -> l = [].
Proof. intros [r H]. symmetry in H. apply app_eq_nil in H. tauto. Qed.

Lemma emits_ret {O A} (a : A) : emits f (O := O) [] (ret a).
Proof. intros s. exists []. cbn. split; [symmetry; apply app_nil_r | reflexivity]. Qed.

Lemma emits_raise {O A} (e : pyexc) (full : list B) : emits f (O := O) (A := A) full (raise e).
Proof.
  intros s. exists []. cbn. split; [symmetry; apply app_nil_r | apply initial_part_nil].
Qed.

Lemma emits_lift_outcome {O A} (r : outcome A) : emits f (O := O) [] (lift_outcome r).
Proof.
  intros s. exists []. cbn. split; [symmetry; apply app_nil_r |].
  destruct r; [reflexivity | apply initial_part_nil].
Qed.

Lemma emits_emit {O} (e : event) : emits f (O := O) (f e) (emit e).
Proof.
  intros s. exists (f e). cbn. rewrite flat_map_app. cbn. rewrite app_nil_r.
  split; reflexivity.
Qed.

Lemma emits_get_self {O} : emits f (O := O) [] get_self.
Proof. intros s. exists []. cbn. split; [symmetry; apply app_nil_r | reflexivity]. Qed.

Lemma emits_set_self {O} (o : O) : emits f [] (set_self o).
Proof. intros s. exists []. cbn. split; [symmetry; apply app_nil_r | reflexivity]. Qed.

Lemma emits_get_fs {O} : emits f (O := O) [] get_fs.
Proof. intros s. exists []. cbn. split; [symmetry; apply app_nil_r | reflexivity]. Qed.

Lemma emits_set_fs {O} (x : FS.t) : emits f (O := O) [] (set_fs x).
Proof. intros s. exists []. cbn. split; [symmetry; apply app_nil_r | reflexivity]. Qed.

Lemma emits_bind {O A C} (l1 l2 : list B) (m : M (state O) A) (k : A -> M (state O) C) :
  emits f l1 m -> (forall a, emits f l2 (k a)) -> emits f (l1 ++ l2) (bind m k).
Proof.
  intros Hm Hk s. destruct (Hm s) as [n1 [T1 R1]]. unfold bind.
  destruct (m s) as [[a|e] s1]; cbn [fst snd] in *.
  - destruct (Hk a s1) as [n2 [T2 R2]]. exists (n1 ++ n2)%list. split.
    + rewrite T2, T1. symmetry. apply app_assoc.
    + subst n1. destruct (fst (k a s1)); [now subst | now apply initial_part_cons_app].
  - exists n1. split; [exact T1 | now apply initial_part_app].
Qed.

Lemma emits_bind_upto {O A C} (l1 l2 : list B) (m : M (state O) A) (k : A -> M (state O) C) :
  emits f l1 m -> (forall a, emits_upto f l2 (k a)) -> emits_upto f (l1 ++ l2) (bind m k).
Proof.
  intros Hm Hk s. destruct (Hm s) as [n1 [T1 R1]]. unfold bind.
  destruct (m s) as [[a|e] s1]; cbn [fst snd] in *.
  - destruct (Hk a s1) as [n2 [T2 R2]]. exists (n1 ++ n2)%list. split.
    + rewrite T2, T1. symmetry. apply app_assoc.
    + subst n1. now apply initial_part_cons_app.
  - exists n1. split; [exact T1 | now apply initial_part_app].
Qed.

Lemma emits_weaken {O A} (l : list B) (m : M (state O) A) : emits f l m -> emits_upto f l m.
Proof.
  intros Hm s. destruct (Hm s) as [n [T R]]. exists n. split; [exact T|].
  destruct (fst (m s)); [subst; apply initial_part_refl | exact R].
Qed.

Lemma emits_nil_upto {O A} (l : list B) (m : M (state O) A) : emits f [] m -> emits_upto f l m.
Proof.
  intros Hm s. destruct (Hm s) as [n [T R]]. exists n. split; [exact T|].
  destruct (fst (m s)); [subst; apply initial_part_nil |].
  apply initial_part_of_nil in R. subst. apply initial_part_nil.
Qed.

(** A handler that observes nothing and always raises. *)
Lemma emits_try_except {O A} (l : list B) (body : M (state O) A)
      (handler : string -> string -> M (state O) A) :
  emits f l body ->
  (forall cls msg, emits f [] (handler cls msg)) ->
  (forall cls msg s, exists e, fst (handler cls msg s) = Raise e) ->
  emits f l (try_except body handler).
Proof.
  intros Hb Hh Hr s. destruct (Hb s) as [n [T R]]. unfold try_except.
  destruct (body s) as [[a|[cls msg|code]] s1]; cbn [fst snd] in *.
  - exists n. split; assumption.
  - destruct (Hh cls msg s1) as [n2 [T2 R2]]. destruct (Hr cls msg s1) as [e He].
    rewrite He in R2. apply initial_part_of_nil in R2. subst n2.
    exists n. split.
    + rewrite T2, T. apply app_nil_r.
    + rewrite He. exact R.
  - exists n. split; assumption.
Qed.

(** A [finally] part that observes nothing and returns. *)
Lemma emits_try_finally {O A} (l : list B) (body : M (state O) A) (final : M (state O) unit) :
  emits f l body ->
  emits f [] final ->
  (forall s, fst (final s) = Return tt) ->
  emits f l (try_finally body final).
Proof.
  intros Hb Hf Hr s. destruct (Hb s) as [n [T R]]. unfold try_finally.
  destruct (body s) as [r s1]; cbn [fst snd] in *.
  destruct (Hf s1) as [n2 [T2 R2]]. specialize (Hr s1).
  destruct (final s1) as [[[]|e] s2]; cbn [fst snd] in *; [|discriminate].
  subst n2. exists n. split; [rewrite T2, T; apply app_nil_r | exact R].
Qed.

Lemma emits_upto_try_finally {O A} (l : list B) (body : M (state O) A)
      (final : M (state O) unit) :
  emits_upto f l body ->
  emits f [] final ->
  emits_upto f l (try_finally body final).
Proof.
  intros Hb Hf s. destruct (Hb s) as [n [T R]]. unfold try_finally.
  destruct (body s) as [r s1]; cbn [fst snd] in *.
  destruct (Hf s1) as [n2 [T2 R2]].
  assert (n2 = []) as ->.
  { destruct (fst (final s1)); [assumption | now apply initial_part_of_nil]. }
  exists n. destruct (final s1) as [[[]|e] s2]; cbn [fst snd] in *;
    (split; [rewrite T2, T; apply app_nil_r | exact R]).
Qed.

Lemma emits_on_translator {A} (l : list B) (m : M (state VideoTranslator) A) :
  emits f l m -> emits f l (on_translator m).
Proof.
  intros Hm s. unfold on_translator. destruct (translator (self s)) as [t|].
  - destruct (Hm (mkState t (fs s) (trace s))) as [n [T R]].
    destruct (m (mkState t (fs s) (trace s))) as [r s1]; cbn [fst snd trace] in *.
    exists n. split; assumption.
  - exists []. cbn. split; [symmetry; apply app_nil_r | apply initial_part_nil].
Qed.

Lemma emits_eq {O A} (l l' : list B) (m : M (state O) A) :
  emits f l m -> l = l' -> emits f l' m.
Proof. intros H <-. exact H. Qed.

Lemma emits_upto_eq {O A} (l l' : list B) (m : M (state O) A) :
  emits_upto f l m -> l = l' -> emits_upto f l' m.
Proof. intros H <-. exact H. Qed.

Lemma emits_try_except_upto_body {O A} (l : list B) (body : M (state O) A)
      (handler : string -> string -> M (state O) A) :
  emits_upto f l body ->
  (forall cls msg, emits f [] (handler cls msg)) ->
  emits_upto f l (try_except body handler).
Proof.
  intros Hb Hh s. destruct (Hb s) as [n [T R]]. unfold try_except.
  destruct (body s) as [[a|[cls msg|code]] s1]; cbn [fst snd] in *.
  - exists n. split; assumption.
  - destruct (Hh cls msg s1) as [n2 [T2 R2]].
    assert (n2 = []) as ->.
    { destruct (fst (handler cls msg s1)); [assumption | now apply initial_part_of_nil]. }
    exists n. split; [rewrite T2, T; apply app_nil_r | exact R].
  - exists n. split; assumption.
Qed.

End EmitsRules.

(** ** Running through a statement *)

Ltac unfold_statements :=
  unfold main, translate_video, make_temp_dir, ensure_model, load_model, extract_audio,
    transcribe_audio, translate_text, generate_audio, resolve_voice,
    create_translated_video, cleanup_on_error, shutil_rmtree, join_temp_dir, get_model,
    get_temp_dir, set_model, set_temp_dir, set_translator, set_model_loaded,
    set_processing, widget, progress, os_path_exists, creates, external, print, sys_exit;
  cbv zeta.

(** One rule per form of statement; the list of a part is computed once the
    part is done.  A case analysis comes before the list of its branches is
    given a name, so that the list does not depend on the case. *)
Ltac emits_go :=
  lazymatch goal with
  | |- emits _ _ (match ?x with _ => _ end) =>
      first [ progress cbv beta iota | destruct x ]; emits_go
  | |- _ =>
      eapply emits_eq;
      [ lazymatch goal with
        | |- emits _ _ (bind _ _) => eapply emits_bind; [ emits_go | intros; emits_go ]
        | |- emits _ _ (ret _) => apply emits_ret
        | |- emits _ _ (raise _) => apply emits_raise
        | |- emits _ _ (lift_outcome _) => apply emits_lift_outcome
        | |- emits _ _ (emit _) => apply emits_emit
        | |- emits _ _ get_self => apply emits_get_self
        | |- emits _ _ (set_self _) => apply emits_set_self
        | |- emits _ _ get_fs => apply emits_get_fs
        | |- emits _ _ (set_fs _) => apply emits_set_fs
        | |- emits _ _ (try_except _ _) =>
            eapply emits_try_except;
            [ emits_go | intros; emits_go | intros; eexists; reflexivity ]
        | |- emits _ _ (try_finally _ _) =>
            eapply emits_try_finally; [ emits_go | emits_go | intros; reflexivity ]
        | |- emits _ _ (on_translator _) => apply emits_on_translator; emits_go
        end
      | cbn; reflexivity ]
  end.

(** The same for a statement of which only an initial part may be seen. *)
Ltac upto_go :=
  lazymatch goal with
  | |- emits_upto _ _ (match ?x with _ => _ end) =>
      first [ progress cbv beta iota | destruct x ]; upto_go
  | |- _ =>
      eapply emits_upto_eq;
      [ lazymatch goal with
        | |- emits_upto _ _ (bind _ _) =>
            eapply emits_bind_upto; [ emits_go | intros; upto_go ]
        | |- emits_upto _ _ (try_except _ _) =>
            eapply emits_try_except_upto_body; [ upto_go | intros; emits_go ]
        | |- emits_upto _ _ (try_finally _ _) =>
            eapply emits_upto_try_finally; [ upto_go | emits_go ]
        | |- emits_upto _ _ _ =>
            first [ apply emits_nil_upto; emits_go | apply emits_weaken; emits_go ]
        end
      | cbn; reflexivity ]
  end.

(** ** The stages of [translate_video] *)


Example translate_video_all_stages :
  fst (translate_video Sample.all_fine "/videos/clip.mp4" "es" "/videos/out.mp4" Sample.start)
  = Return tt
  /\ stage_marks (trace (snd (translate_video Sample.all_fine "/videos/clip.mp4" "es"
                                "/videos/out.mp4" Sample.start)))
     = pipeline_marks.
Proof. split; reflexivity. Qed.

Example translate_video_stops_at_transcribe :
  stage_marks (trace (snd (translate_video (Sample.failing_at Transcribe) "/videos/clip.mp4"
                             "es" "/videos/out.mp4" Sample.start)))
  = [Enter Extract; Leave Extract; Enter Transcribe].
Proof. reflexivity. Qed.

(** ** The output path of [main] *)

Lemma main_emits_video env args :
  emits written_video [PyPath.to_string (output_path_of args)] (main env args).
Proof. unfold_statements. emits_go. Qed.

Lemma output_path_default args :
  output args = None \/ output args = Some "" ->
  output_path_of args
  = PyPath.truediv (PyPath.parent (PyPath.of_string (input args)))
      (PyPath.stem (PyPath.of_string (input args)) ++ "_translated_" ++ language args
       ++ PyPath.suffix (PyPath.of_string (input args))).
Proof. unfold output_path_of, translated_name. intros [-> | ->]; reflexivity. Qed.

(** C7. When [main] is given no output path ([-o] absent or empty) and the
    run returns, the one video that the run writes goes to the path made of
    the parent directory of the input, the stem of its name, "_translated_",
    the language code and the suffix of its name. *)
Theorem main_default_output_path env args s :
  output args = None \/ output args = Some "" ->
  fst (main env args s) = Return tt ->
  written_videos (trace (snd (main env args s)))
  = (written_videos (trace s)
     ++ [PyPath.to_string
           (PyPath.truediv (PyPath.parent (PyPath.of_string (input args)))
              (PyPath.stem (PyPath.of_string (input args)) ++ "_translated_"
               ++ language args ++ PyPath.suffix (PyPath.of_string (input args))))])%list.
Proof.
  intros Hout Hret. destruct (main_emits_video env args s) as [new [T R]].
  rewrite Hret in R. subst new. rewrite <- (output_path_default args Hout). exact T.
Qed.

Lemma main_default_output_path_witness :
  written_videos (trace (snd (main Sample.all_fine Sample.no_output_option
                                Sample.start)))
  = ["/videos/clip_translated_es.mp4"].
Proof.
  exact (main_default_output_path Sample.all_fine Sample.no_output_option
           Sample.start (or_introl eq_refl) eq_refl).
Defined.

Example default_output_in_cwd :
  PyPath.to_string (output_path_of {| input := "clip.avi"; language := "ja"; output := None |})
  = "clip_translated_ja.avi".
Proof. reflexivity. Qed.

Example default_output_empty_option :
  PyPath.to_string
    (output_path_of {| input := "/data/in/talk.final.mov"; language := "fr"; output := Some "" |})
  = "/data/in/talk.final_translated_fr.mov".
Proof. reflexivity. Qed.

Example explicit_output_kept :
  PyPath.to_string
    (output_path_of {| input := "input.mp4"; language := "es"; output := Some "output_spanish.mp4" |})
  = "output_spanish.mp4".
Proof. reflexivity. Qed.

(** ** The progress bar of the front-end *)

Lemma initial_part_with_last {A} (l new : list A) (x : A) :
  ~ In x l -> initial_part new (l ++ [x]) -> In x new -> new = (l ++ [x])%list.
Proof.
  intros Hn [rest E]. revert new E. induction l as [|a l IH]; intros new E Hin.
  - destruct new as [|y new]; [destruct Hin|].
    cbn in E. injection E as <- E. symmetry in E. apply app_eq_nil in E.
    destruct E as [-> _]. reflexivity.
  - destruct new as [|y new]; [destruct Hin|].
    cbn in E. injection E as <- E. cbn. f_equal. apply IH.
    + intros H. apply Hn. right. exact H.
    + exact E.
    + destruct Hin as [<- | Hin]; [|exact Hin]. exfalso. apply Hn. left. reflexivity.
Qed.

Lemma initial_part_flat_map {A C} (g : A -> list C) (l full : list A) :
  initial_part l full -> initial_part (flat_map g l) (flat_map g full).
Proof. intros [rest ->]. exists (flat_map g rest). apply flat_map_app. Qed.

Example translate_block_success :
  fst (translate_block Sample.all_fine "clip.mp4" "sv" Sample.ready) = Return tt
  /\ report_marks (trace (snd (translate_block Sample.all_fine "clip.mp4" "sv" Sample.ready)))
     = (map Progress checkpoints ++ [success_banner])%list
  /\ progress_values (trace (snd (translate_block Sample.all_fine "clip.mp4" "sv"
                                    Sample.ready)))
     = [10; 30; 50; 70; 85; 100].
Proof. repeat split. Qed.

Example translate_block_stops_at_synthesize :
  progress_values (trace (snd (translate_block (Sample.failing_at Synthesize) "clip.mp4" "sv"
                                 Sample.ready)))
  = [10; 30; 50; 70].
Proof. reflexivity. Qed.

(** ** Loading the model in [translate_video] *)

Lemma try_except_bind_ext {S A} (m1 m2 m2' : M S unit) (k : unit -> M S A)
      (h : string -> string -> M S A) (s : S) :
  (forall a s1, m1 s = (Return a, s1) -> m2 s1 = m2' s1) ->
  try_except (bind m1 (fun _ => bind m2 k)) h s
  = try_except (bind m1 (fun _ => bind m2' k)) h s.
Proof.
  intros H. unfold try_except, bind. destruct (m1 s) as [[a|e] s1] eqn:E1; [|reflexivity].
  rewrite (H a s1 eq_refl). reflexivity.
Qed.

Lemma make_temp_dir_keeps_model env s a s1 :
  make_temp_dir env s = (Return a, s1) -> model (self s1) = model (self s).
Proof.
  unfold_statements. unfold bind, get_fs, get_self, set_self, set_fs, emit, lift_outcome, ret.
  cbn. destruct (mkdtemp env (fs s)) as [d|e]; cbn; intros H; inversion H; reflexivity.
Qed.

Lemma ensure_model_not_loaded env s :
  model (self s) = None -> ensure_model env s = load_model env s.
Proof.
  intros H. unfold ensure_model, get_model, bind at 1 2, get_self, ret. cbn.
  rewrite H. reflexivity.
Qed.

Lemma ensure_model_loaded env s m :
  model (self s) = Some m -> ensure_model env s = ret tt s.
Proof.
  intros H. unfold ensure_model, get_model, bind, get_self, ret. cbn.
  rewrite H. reflexivity.
Qed.

Lemma translate_video_never_raises_exception env v tl out s cls msg :
  fst (translate_video env v tl out s) <> Raise (Exc cls msg).
Proof.
  unfold translate_video, try_except.
  match goal with |- context [match ?b s with _ => _ end] => destruct (b s) as [[a|[c m|code]] s1] end;
    cbn; discriminate.
Qed.

(** C2, as stated, fails: a translator without a model is run to the end,
    the model being loaded on the way. *)
Lemma translate_video_loads_model_itself :
  model (self Sample.start) = None
  /\ fst (translate_video Sample.all_fine "/videos/clip.mp4" "es" "/videos/out.mp4" Sample.start)
     = Return tt
  /\ load_and_stage_marks
       (trace (snd (translate_video Sample.all_fine "/videos/clip.mp4" "es" "/videos/out.mp4"
                      Sample.start)))
     = Call (WhisperLoadModel "base") :: pipeline_marks.
Proof. repeat split. Qed.

(** ** The voice of [generate_audio] *)

Lemma dict_mem_get_In {V} (d : PyDict.dict V) (k : string) (default : V) :
  PyDict.mem k d = true -> In (k, PyDict.get d k default) d.
Proof.
  induction d as [|[k' v] d IH]; cbn; [discriminate|].
  destruct (String.eqb_spec k' k) as [->|Hne]; cbn.
  - intros _. left. reflexivity.
  - intros H. right. apply IH. exact H.
Qed.

Lemma dict_get_not_mem {V} (d : PyDict.dict V) (k : string) (default : V) :
  PyDict.mem k d = false -> PyDict.get d k default = default.
Proof.
  induction d as [|[k' v] d IH]; cbn; [reflexivity|].
  destruct (String.eqb k' k); cbn; [discriminate | exact IH].
Qed.

Lemma catalog_fetches_snoc (t : list event) (e : event) :
  catalog_fetches (t ++ [e]) = catalog_fetches t + List.length (catalog_fetch e).
Proof.
  unfold catalog_fetches. rewrite flat_map_app, length_app. cbn. rewrite app_nil_r. reflexivity.
Qed.

Lemma resolve_voice_table_hit env text tl s :
  PyDict.mem (lang_code_of tl) voice_map = true ->
  resolve_voice env text tl s
  = (Return (PyDict.get voice_map (lang_code_of tl) default_voice), s).
Proof.
  intros H. unfold resolve_voice. cbv zeta. rewrite H. cbn [negb]. rewrite andb_false_r.
  reflexivity.
Qed.

Lemma generate_audio_table_hit_emits env text tl out :
  PyDict.mem (lang_code_of tl) voice_map = true ->
  emits catalog_fetch [] (generate_audio env text tl out).
Proof.
  intros H. unfold generate_audio, resolve_voice. cbv zeta. rewrite H. cbn [negb].
  rewrite andb_false_r. unfold_statements. emits_go.
Qed.

(** C3. When the lower-cased first two characters of the language code are a
    key of the table, the voice is the value of the table for that key, found
    without any effect, and [generate_audio] as a whole never calls
    [edge_tts.list_voices]. *)
Theorem resolve_voice_static_table env text tl out s :
  PyDict.mem (lang_code_of tl) voice_map = true ->
  In (lang_code_of tl, PyDict.get voice_map (lang_code_of tl) default_voice) voice_map
  /\ resolve_voice env text tl s
     = (Return (PyDict.get voice_map (lang_code_of tl) default_voice), s)
  /\ catalog_fetches (trace (snd (generate_audio env text tl out s)))
     = catalog_fetches (trace s).
Proof.
  intros H. split; [|split].
  - apply dict_mem_get_In. exact H.
  - apply resolve_voice_table_hit. exact H.
  - destruct (@generate_audio_table_hit_emits env text tl out H s) as [new [T R]].
    assert (new = []) as ->.
    { destruct (fst (generate_audio env text tl out s));
        [exact R | apply initial_part_of_nil; exact R]. }
    unfold catalog_fetches. rewrite T, app_nil_r. reflexivity.
Qed.

Lemma resolve_voice_static_table_witness :
  In ("es", "es-ES-ElviraNeural") voice_map
  /\ resolve_voice Sample.all_fine "hola mundo" "ES-mx" Sample.loaded
     = (Return "es-ES-ElviraNeural", Sample.loaded)
  /\ catalog_fetches (trace (snd (generate_audio Sample.all_fine "hola mundo" "ES-mx"
                                    "/tmp/tmpk3x9/translated_audio.mp3" Sample.loaded)))
     = 0.
Proof.
  exact (resolve_voice_static_table Sample.all_fine "hola mundo" "ES-mx"
           "/tmp/tmpk3x9/translated_audio.mp3" Sample.loaded eq_refl).
Defined.

Lemma resolve_voice_table_miss env text tl s :
  PyDict.mem (lang_code_of tl) voice_map = false ->
  resolve_voice env text tl s
  = (external (Communicate text default_voice) (communicate env text default_voice) ;;
     voices <- external ListVoices (list_voices env) ;;
     match matching_voices voices (lang_code_of tl) with
     | v :: _ => ret (ShortName v)
     | [] =>
         print ("Warning: Using default English voice for " ++ tl) ;;
         ret default_voice
     end) s.
Proof.
  intros H. unfold resolve_voice. cbv zeta.
  rewrite (@dict_get_not_mem _ _ _ _ H), H, String.eqb_refl. reflexivity.
Qed.

Lemma matching_voices_head voices lang_code v rest :
  matching_voices voices lang_code = v :: rest ->
  In v voices /\ PyStr.startswith (Locale v) lang_code = true.
Proof.
  intros H. apply (filter_In (fun v => PyStr.startswith (Locale v) lang_code)).
  fold (matching_voices voices lang_code). rewrite H. left. reflexivity.
Qed.

(** C4. When the lower-cased first two characters of the language code are
    not a key of the table (and [edge_tts.Communicate] accepts the text with
    the default voice), [edge_tts.list_voices] is called exactly once; of the
    catalog it returns, the first entry whose locale starts with the code
    gives the voice; with no such entry the voice is the default English one,
    a warning is printed, and [generate_audio] goes on to synthesize with
    it. *)
Theorem resolve_voice_catalog_fallback env text tl s :
  PyDict.mem (lang_code_of tl) voice_map = false ->
  communicate env text default_voice = Return tt ->
  catalog_fetches (trace (snd (resolve_voice env text tl s)))
  = S (catalog_fetches (trace s))
  /\ forall voices, list_voices env = Return voices ->
       match matching_voices voices (lang_code_of tl) with
       | v :: _ =>
           In v voices
           /\ PyStr.startswith (Locale v) (lang_code_of tl) = true
           /\ fst (resolve_voice env text tl s) = Return (ShortName v)
       | [] =>
           fst (resolve_voice env text tl s) = Return default_voice
           /\ In (Print ("Warning: Using default English voice for " ++ tl))
                (trace (snd (resolve_voice env text tl s)))
           /\ forall out, communicate_save env text default_voice out = Return tt ->
                          fst (generate_audio env text tl out s) = Return tt
       end.
Proof.
  intros Hmiss Hcomm.
  assert (Hrun : forall s0, resolve_voice env text tl s0
                 = match list_voices env with
                   | Return voices =>
                       match matching_voices voices (lang_code_of tl) with
                       | v :: _ =>
                           (Return (ShortName v),
                            mkState (self s0) (fs s0)
                              (trace s0 ++ [Call (Communicate text default_voice);
                                            Call ListVoices]))
                       | [] =>
                           (Return default_voice,
                            mkState (self s0) (fs s0)
                              (trace s0 ++ [Call (Communicate text default_voice);
                                            Call ListVoices;
                                            Print ("Warning: Using default English voice for "
                                                   ++ tl)]))
                       end
                   | Raise e =>
                       (Raise e,
                        mkState (self s0) (fs s0)
                          (trace s0 ++ [Call (Communicate text default_voice);
                                        Call ListVoices]))
                   end).
  { intros s0. rewrite (@resolve_voice_table_miss env text tl s0 Hmiss).
    unfold external, print, bind, emit, lift_outcome, ret. cbn [fst snd trace self fs].
    rewrite Hcomm. destruct (list_voices env) as [voices|e].
    - destruct (matching_voices voices (lang_code_of tl));
        cbn [fst snd trace self fs]; rewrite <- ?app_assoc; reflexivity.
    - cbn [fst snd trace self fs]. rewrite <- ?app_assoc. reflexivity. }
  split.
  - rewrite Hrun. unfold catalog_fetches.
    destruct (list_voices env) as [voices|e];
      [destruct (matching_voices voices (lang_code_of tl))|];
      cbn [snd trace]; rewrite flat_map_app, length_app; cbn; lia.
  - intros voices Hvoices.
    destruct (matching_voices voices (lang_code_of tl)) as [|v rest] eqn:Hmatch.
    + split; [|split].
      * rewrite Hrun, Hvoices, Hmatch. reflexivity.
      * rewrite Hrun, Hvoices, Hmatch. cbn [snd trace].
        apply in_or_app. right. right. right. left. reflexivity.
      * intros out Hsave. unfold generate_audio.
        unfold bind at 1 2 3. cbn [emit print fst snd].
        rewrite Hrun, Hvoices, Hmatch.
        unfold creates, external, print, bind, emit, lift_outcome, ret, get_fs, set_fs.
        cbn [fst snd trace self fs]. rewrite Hcomm, Hsave. reflexivity.
    + destruct (@matching_voices_head _ _ _ _ Hmatch) as [Hin Hpre]. split; [exact Hin|].
      split; [exact Hpre|]. rewrite Hrun, Hvoices, Hmatch. reflexivity.
Qed.

Lemma resolve_voice_catalog_fallback_witness :
  catalog_fetches (trace (snd (resolve_voice Sample.all_fine "hej" "sv" Sample.loaded))) = 1
  /\ fst (resolve_voice Sample.all_fine "hej" "sv" Sample.loaded) = Return "sv-SE-SofieNeural".
Proof.
  destruct (@resolve_voice_catalog_fallback Sample.all_fine "hej" "sv" Sample.loaded
              eq_refl eq_refl) as [Hfetch Hvoice].
  split; [exact Hfetch|].
  exact (proj2 (proj2 (Hvoice Sample.catalog eq_refl))).
Defined.

Example resolve_voice_unknown_language :
  fst (resolve_voice Sample.all_fine "hello" "xx" Sample.loaded) = Return "en-US-AriaNeural"
  /\ fst (generate_audio Sample.all_fine "hello" "xx" "/tmp/tmpk3x9/translated_audio.mp3"
            Sample.loaded) = Return tt.
Proof. split; reflexivity. Qed.

(** ** The language code is read through its first two characters *)

Lemma lower_char_idempotent (c : ascii) :
  PyStr.lower_char (PyStr.lower_char c) = PyStr.lower_char c.
Proof.
  destruct c as [b0 b1 b2 b3 b4 b5 b6 b7].
  destruct b0, b1, b2, b3, b4, b5, b6, b7; reflexivity.
Qed.

Lemma lower_idempotent (s : string) : PyStr.lower (PyStr.lower s) = PyStr.lower s.
Proof.
  induction s as [|c s IH]; cbn; [reflexivity|].
  rewrite lower_char_idempotent, IH. reflexivity.
Qed.

Lemma length_lower (s : string) : String.length (PyStr.lower s) = String.length s.
Proof. induction s as [|c s IH]; cbn; [reflexivity | rewrite IH; reflexivity]. Qed.

Lemma length_take (n : nat) (s : string) :
  n <= String.length s -> String.length (PyStr.take n s) = n.
Proof.
  unfold PyStr.take. revert s. induction n as [|n IH]; intros s H.
  - destruct s; reflexivity.
  - destruct s as [|c s]; cbn in *; [lia|]. rewrite IH; [reflexivity | lia].
Qed.

Lemma take_all (n : nat) (s : string) : String.length s <= n -> PyStr.take n s = s.
Proof.
  unfold PyStr.take. revert s. induction n as [|n IH]; intros s H.
  - destruct s; cbn in *; [reflexivity | lia].
  - destruct s as [|c s]; cbn in *; [reflexivity|]. rewrite IH; [reflexivity | lia].
Qed.

Lemma lang_code_of_primary_subtag (tl : string) :
  2 <= String.length tl ->
  lang_code_of (PyStr.lower (PyStr.take 2 tl)) = lang_code_of tl.
Proof.
  intros H. unfold lang_code_of.
  assert (Hlen : String.length (PyStr.lower (PyStr.take 2 tl)) = 2).
  { rewrite length_lower. apply length_take. exact H. }
  rewrite Hlen. replace (2 <=? 2)%nat with true by reflexivity.
  replace (2 <=? String.length tl)%nat with true by (symmetry; apply Nat.leb_le; exact H).
  rewrite (@take_all 2 (PyStr.lower (PyStr.take 2 tl))) by (rewrite Hlen; lia).
  apply lower_idempotent.
Qed.

(** C9, as amended.  For a language code of two characters or more, all of
    them code points below 256 as the strings of this model are, the voice
    that [generate_audio] resolves (or the exception met on the way) is the
    one it resolves for the lower-cased first two characters of the code:
    case and whatever follows the second character play no part. *)
Theorem resolve_voice_primary_subtag env text tl s :
  2 <= String.length tl ->
  fst (resolve_voice env text tl s)
  = fst (resolve_voice env text (PyStr.lower (PyStr.take 2 tl)) s).
Proof.
  intros H. unfold resolve_voice. cbv zeta. rewrite (@lang_code_of_primary_subtag tl H).
  destruct (String.eqb (PyDict.get voice_map (lang_code_of tl) default_voice) default_voice
            && negb (PyDict.mem (lang_code_of tl) voice_map)); [|reflexivity].
  unfold external, print, bind, emit, lift_outcome, ret. cbn [fst snd trace self fs].
  destruct (communicate env text (PyDict.get voice_map (lang_code_of tl) default_voice));
    [|reflexivity].
  destruct (list_voices env) as [voices|e]; [|reflexivity].
  destruct (matching_voices voices (lang_code_of tl)); reflexivity.
Qed.

Lemma resolve_voice_primary_subtag_witness :
  fst (resolve_voice Sample.all_fine "hej" "SV-se" Sample.loaded)
  = fst (resolve_voice Sample.all_fine "hej" "sv" Sample.loaded).
Proof.
  apply (@resolve_voice_primary_subtag Sample.all_fine "hej" "SV-se" Sample.loaded).
  cbn. lia.
Defined.

Example lang_code_examples :
  lang_code_of "ES-mx" = "es" /\ lang_code_of "zh-CN" = "zh" /\ lang_code_of "E" = "e".
Proof. repeat split. Qed.

(** ** Beyond Latin-1 *)

Lemma of_string_length (s : string) :
  List.length (PyUnicode.of_string s) = String.length s.
Proof.
  unfold PyUnicode.of_string. rewrite length_map.
  induction s as [|c s IH]; cbn; [reflexivity | rewrite IH; reflexivity].
Qed.

Lemma of_string_take (n : nat) (s : string) :
  PyUnicode.of_string (PyStr.take n s) = firstn n (PyUnicode.of_string s).
Proof.
  unfold PyUnicode.of_string, PyStr.take. revert s.
  induction n as [|n IH]; intros s.
  - destruct s; reflexivity.
  - destruct s as [|c s]; cbn; [reflexivity|]. rewrite IH. reflexivity.
Qed.

Lemma lower_of_string (s : string) :
  PyUnicode.lower (PyUnicode.of_string s) = Some (PyUnicode.of_string (PyStr.lower s)).
Proof.
  unfold PyUnicode.of_string. induction s as [|c s IH]; [reflexivity|].
  cbn [list_ascii_of_string map PyUnicode.lower PyStr.lower]. rewrite IH.
  unfold PyUnicode.lower_point.
  replace (N_of_ascii c <? 256)%N with true
    by (symmetry; apply N.ltb_lt, N_ascii_bounded).
  rewrite ascii_N_embedding. reflexivity.
Qed.

(** On the strings of the main model the two readings of lines 101-102
    agree. *)
Lemma lang_code_of_string (tl : string) :
  PyUnicode.lang_code_of (PyUnicode.of_string tl)
  = Some (PyUnicode.of_string (lang_code_of tl)).
Proof.
  unfold PyUnicode.lang_code_of, lang_code_of. rewrite of_string_length.
  destruct (2 <=? String.length tl)%nat.
  - rewrite <- of_string_take. apply lower_of_string.
  - apply lower_of_string.
Qed.

(** C9, as stated, fails beyond Latin-1: [str.lower] can lengthen a string.
    For "H" followed by U+0130 the code looked up has three code points and
    is not in the table, while the lower-cased first two characters, taken as
    a language code, give "hi". *)
Lemma lower_can_lengthen_the_code :
  let tl := [72; 304]%N in
  List.length tl = 2
  /\ PyUnicode.lower (firstn 2 tl) = Some [104; 105; 775]%N
  /\ PyUnicode.lang_code_of tl = Some [104; 105; 775]%N
  /\ PyUnicode.lang_code_of [104; 105; 775]%N = Some (PyUnicode.of_string "hi")
  /\ PyUnicode.voice_for Sample.catalog tl = Some "en-US-AriaNeural"
  /\ PyUnicode.voice_for Sample.catalog [104; 105; 775]%N = Some "hi-IN-SwaraNeural".
Proof. vm_compute. repeat split. Qed.

(** ** [translate_text] ends the process when the translation fails *)

Lemma translate_text_never_raises_exception env text tl s cls msg :
  fst (translate_text env text tl s) <> Raise (Exc cls msg).
Proof.
  unfold translate_text, try_except, external, print, sys_exit, raise, bind, emit, lift_outcome,
    ret.
  cbn [fst snd trace self fs].
  destruct (google_translate env tl text) as [t|[c m|code]]; cbn; discriminate.
Qed.



(** The two callers under a failing translation: the command line ends with
    status 1 without the handler of [translate_video] having printed; the
    front-end block is left with [SystemExit] too, its error box is not shown
    and its temporary directory stays, only its [finally] part runs. *)
Example callers_of_failing_translate_text :
  let cli := translate_video (Sample.failing_at Translate) "/videos/clip.mp4" "es"
               "/videos/out.mp4" Sample.loaded in
  let web := translate_block (Sample.failing_at Translate) "clip.mp4" "es" Sample.ready in
  fst cli = Raise (SystemExit 1)
  /\ existsb (fun e => match e with PrintExc => true | _ => false end) (trace (snd cli)) = false
  /\ fst web = Raise (SystemExit 1)
  /\ existsb (fun e => match e with Widget "st.error" _ => true | _ => false end)
       (trace (snd web)) = false
  /\ FS.exists_ "/tmp/tmpk3x9" (fs (snd web)) = true
  /\ processing (self (snd web)) = false.
Proof. repeat split. Qed.

(** ** Removing the temporary directory *)

Lemma exists_after_rmtree (d : string) (f : FS.t) :
  FS.exists_ d (filter (fun p => negb (FS.within d p)) f) = false.
Proof.
  unfold FS.exists_. induction f as [|p f IH]; [reflexivity|].
  cbn [filter]. destruct (FS.within d p) eqn:W; cbn [negb]; [exact IH|].
  cbn [existsb]. rewrite IH, orb_false_r.
  unfold FS.within in W. apply orb_false_elim in W. destruct W as [W _].
  rewrite String.eqb_sym. exact W.
Qed.

(** C5, as amended.  [shutil.rmtree(d)], the cleanup of [translate_video],
    returns when [d] exists and raises [FileNotFoundError] when it does not;
    either way [d] does not exist afterwards.  The cleanup of the error
    handler of the front-end, which looks for [d] first, always returns, and
    so does a second run of it. *)
Theorem cleanup_of_temp_dir (d : string) (s : state VideoTranslator) :
  fst (shutil_rmtree (Some d) s)
  = (if FS.exists_ d (fs s) then Return tt
     else Raise (Exc "FileNotFoundError"
                   ("[Errno 2] No such file or directory: '" ++ d ++ "'")))
  /\ FS.exists_ d (fs (snd (shutil_rmtree (Some d) s))) = false
  /\ fst (cleanup_on_error d s) = Return tt
  /\ FS.exists_ d (fs (snd (cleanup_on_error d s))) = false
  /\ fst ((cleanup_on_error d ;; cleanup_on_error d) s) = Return tt.
Proof.
  unfold cleanup_on_error, shutil_rmtree, os_path_exists, external, bind, emit, lift_outcome,
    get_fs, set_fs, ret, FS.rmtree.
  cbn [fst snd trace self fs].
  destruct (FS.exists_ d (fs s)) eqn:E;
    repeat (progress (cbn [fst snd trace self fs]; rewrite ?E, ?exists_after_rmtree));
    repeat split; reflexivity.
Qed.

(** C5, as stated, fails: the second [shutil.rmtree] of a directory
    raises. *)
Lemma shutil_rmtree_twice_raises :
  fst ((shutil_rmtree (Some "/tmp/tmpk3x9") ;; shutil_rmtree (Some "/tmp/tmpk3x9"))
         (mkState new_VideoTranslator ["/tmp/tmpk3x9/original_audio.wav"; "/tmp/tmpk3x9"] []))
  = Raise (Exc "FileNotFoundError" "[Errno 2] No such file or directory: '/tmp/tmpk3x9'").
Proof. reflexivity. Qed.

(** ** What becomes of a path during a statement *)

Lemma exists_create_same (d : string) (f : FS.t) : FS.exists_ d (FS.create d f) = true.
Proof.
  unfold FS.create. destruct (FS.exists_ d f) eqn:E; [exact E|].
  unfold FS.exists_. cbn. rewrite String.eqb_refl. reflexivity.
Qed.

Lemma exists_create_other (d p : string) (f : FS.t) :
  FS.exists_ d f = true -> FS.exists_ d (FS.create p f) = true.
Proof.
  intros H. unfold FS.create. destruct (FS.exists_ p f); [exact H|].
  unfold FS.exists_ in *. cbn. rewrite H. apply orb_true_r.
Qed.

Section KeepsRules.

Variable d : string.

Lemma keeps_ret {O A} (a : A) : keeps d (O := O) (ret a).
Proof. intros s H. exact H. Qed.

Lemma keeps_raise {O A} (e : pyexc) : keeps d (O := O) (A := A) (raise e).
Proof. intros s H. exact H. Qed.

Lemma keeps_lift_outcome {O A} (r : outcome A) : keeps d (O := O) (lift_outcome r).
Proof. intros s H. exact H. Qed.

Lemma keeps_emit {O} (e : event) : keeps d (O := O) (emit e).
Proof. intros s H. exact H. Qed.

Lemma keeps_get_self {O} : keeps d (O := O) get_self.
Proof. intros s H. exact H. Qed.

Lemma keeps_set_self {O} (o : O) : keeps d (set_self o).
Proof. intros s H. exact H. Qed.

Lemma keeps_creates {O} (p : string) : keeps d (O := O) (creates p).
Proof. intros s H. cbn. apply exists_create_other. exact H. Qed.

Lemma keeps_bind {O A C} (m : M (state O) A) (k : A -> M (state O) C) :
  keeps d m -> (forall a, keeps d (k a)) -> keeps d (bind m k).
Proof.
  intros Hm Hk s H. specialize (Hm s H). unfold bind.
  destruct (m s) as [[a|e] s1]; cbn [fst snd] in *; [apply Hk; exact Hm | exact Hm].
Qed.

Lemma keeps_try_except {O A} (body : M (state O) A) (handler : string -> string -> M (state O) A) :
  keeps d body -> (forall cls msg, keeps d (handler cls msg)) -> keeps d (try_except body handler).
Proof.
  intros Hb Hh s H. specialize (Hb s H). unfold try_except.
  destruct (body s) as [[a|[cls msg|code]] s1]; cbn [fst snd] in *;
    [exact Hb | apply Hh; exact Hb | exact Hb].
Qed.

Lemma keeps_try_finally {O A} (body : M (state O) A) (final : M (state O) unit) :
  keeps d body -> keeps d final -> keeps d (try_finally body final).
Proof.
  intros Hb Hf s H. specialize (Hb s H). unfold try_finally.
  destruct (body s) as [r s1]; cbn [fst snd] in *. specialize (Hf s1 Hb).
  destruct (final s1) as [[u|e] s2]; exact Hf.
Qed.

Lemma keeps_weaken {O A} (m : M (state O) A) : keeps d m -> keeps_when_raising d m.
Proof. intros Hm s H. specialize (Hm s H). destruct (fst (m s)); [exact I | exact Hm]. Qed.

Lemma raising_bind {O A C} (m : M (state O) A) (k : A -> M (state O) C) :
  keeps d m -> (forall a, keeps_when_raising d (k a)) -> keeps_when_raising d (bind m k).
Proof.
  intros Hm Hk s H. specialize (Hm s H). unfold bind.
  destruct (m s) as [[a|e] s1]; cbn [fst snd] in *; [apply Hk; exact Hm | exact Hm].
Qed.

(** The last statements of a try body: once [m] has returned, nothing
    raises. *)
Lemma raising_bind_returning {O A C} (m : M (state O) A) (k : A -> M (state O) C) :
  keeps_when_raising d m ->
  (forall a s, exists c, fst (k a s) = Return c) ->
  keeps_when_raising d (bind m k).
Proof.
  intros Hm Hk s H. specialize (Hm s H). unfold bind.
  destruct (m s) as [[a|e] s1]; cbn [fst snd] in *; [|exact Hm].
  destruct (Hk a s1) as [c ->]. exact I.
Qed.

(** [shutil.rmtree] raises only when it has removed nothing. *)
Lemma raising_shutil_rmtree {O} (p : option string) :
  keeps_when_raising d (O := O) (shutil_rmtree p).
Proof.
  intros s H. destruct p as [p|]; [|exact H].
  unfold shutil_rmtree, external, bind, emit, lift_outcome, get_fs, set_fs, ret, FS.rmtree.
  cbn [fst snd trace self fs]. destruct (FS.exists_ p (fs s)); cbn; [exact I | exact H].
Qed.

Lemma raising_try_except {O A} (body : M (state O) A)
      (handler : string -> string -> M (state O) A) :
  keeps_when_raising d body ->
  (forall cls msg, keeps d (handler cls msg)) ->
  keeps_when_raising d (try_except body handler).
Proof.
  intros Hb Hh s H. specialize (Hb s H). unfold try_except.
  destruct (body s) as [[a|[cls msg|code]] s1]; cbn [fst snd] in *; [exact I | | exact Hb].
  specialize (Hh cls msg s1 Hb). destruct (fst (handler cls msg s1)); [exact I | exact Hh].
Qed.

End KeepsRules.

Ltac keeps_go :=
  lazymatch goal with
  | |- keeps _ (match ?x with _ => _ end) =>
      first [ progress cbv beta iota | destruct x ]; keeps_go
  | |- keeps _ (bind _ _) => apply keeps_bind; [ keeps_go | intros; keeps_go ]
  | |- keeps _ (ret _) => apply keeps_ret
  | |- keeps _ (raise _) => apply keeps_raise
  | |- keeps _ (lift_outcome _) => apply keeps_lift_outcome
  | |- keeps _ (emit _) => apply keeps_emit
  | |- keeps _ get_self => apply keeps_get_self
  | |- keeps _ (set_self _) => apply keeps_set_self
  | |- keeps _ (creates _) => apply keeps_creates
  | |- keeps _ (try_except _ _) => apply keeps_try_except; [ keeps_go | intros; keeps_go ]
  | |- keeps _ (try_finally _ _) => apply keeps_try_finally; [ keeps_go | keeps_go ]
  end.

Ltac raising_go :=
  lazymatch goal with
  | |- keeps_when_raising _ (match ?x with _ => _ end) =>
      first [ progress cbv beta iota | destruct x ]; raising_go
  | |- keeps_when_raising _ (bind (shutil_rmtree _) _) =>
      apply raising_bind_returning;
      [ apply raising_shutil_rmtree | intros; eexists; reflexivity ]
  | |- keeps_when_raising _ (bind _ _) =>
      apply raising_bind; [ keeps_go | intros; raising_go ]
  | |- keeps_when_raising _ (try_except _ _) =>
      apply raising_try_except; [ raising_go | intros; keeps_go ]
  | |- keeps_when_raising _ _ => apply keeps_weaken; keeps_go
  end.

Ltac unfold_methods :=
  unfold ensure_model, load_model, extract_audio, transcribe_audio, translate_text,
    generate_audio, resolve_voice, create_translated_video, join_temp_dir, get_model,
    get_temp_dir, set_model, set_temp_dir, external, print, sys_exit;
  cbv zeta.

Lemma make_temp_dir_creates env s d :
  mkdtemp env (fs s) = Return d ->
  exists s1, make_temp_dir env s = (Return tt, s1) /\ FS.exists_ d (fs s1) = true.
Proof.
  intros H. unfold make_temp_dir, set_temp_dir, creates, external, print, bind, emit,
    lift_outcome, get_fs, set_fs, get_self, set_self, ret.
  cbn [fst snd trace self fs]. rewrite H. eexists. split; [reflexivity|].
  cbn [fs]. apply exists_create_same.
Qed.

(** Every run of [translate_video] that has made its temporary directory and
    does not return leaves the directory behind. *)
Lemma translate_video_failure_keeps_temp_dir env v tl out s d :
  mkdtemp env (fs s) = Return d ->
  fst (translate_video env v tl out s) <> Return tt ->
  FS.exists_ d (fs (snd (translate_video env v tl out s))) = true.
Proof.
  intros Hd Hfail. destruct (make_temp_dir_creates env s Hd) as [s1 [Hmk Hex]].
  unfold translate_video in *.
  match type of Hfail with
  | fst (try_except (bind _ ?k) ?h s) <> _ =>
      assert (Hrest : keeps_when_raising d (try_except (k tt) h));
      [ | assert (Heq : try_except (bind (make_temp_dir env) k) h s = try_except (k tt) h s1)
            by (unfold try_except, bind at 1; rewrite Hmk; reflexivity) ]
  end.
  { unfold_methods. raising_go. }
  rewrite Heq in *. specialize (Hrest s1 Hex).
  destruct (fst (try_except _ _ s1)) as [[]|e]; [exfalso; apply Hfail; reflexivity | exact Hrest].
Qed.

(** ** The temporary directory of a failing run *)

(** C1 does not hold of [translate_video]: whichever stage fails, the run
    ends with status 1 and the directory made by [tempfile.mkdtemp] is still
    there. *)
Theorem translate_video_failure_leaves_temp_dir (st : stage) :
  fst (translate_video (Sample.failing_at st) "/videos/clip.mp4" "es" "/videos/out.mp4"
         Sample.loaded)
  = Raise (SystemExit 1)
  /\ FS.exists_ "/tmp/tmpk3x9"
       (fs (snd (translate_video (Sample.failing_at st) "/videos/clip.mp4" "es"
                   "/videos/out.mp4" Sample.loaded)))
     = true.
Proof. destruct st; split; reflexivity. Qed.

(** The front-end block, on the same failures, removes its directory in its
    error handler, the failure of [translate_text] apart. *)
Example translate_block_failure_removes_temp_dir :
  forall st, st <> Translate ->
    fst (translate_block (Sample.failing_at st) "clip.mp4" "es" Sample.ready) = Return tt
    /\ FS.exists_ "/tmp/tmpk3x9"
         (fs (snd (translate_block (Sample.failing_at st) "clip.mp4" "es" Sample.ready)))
       = false.
Proof. intros [] H; try (split; reflexivity). exfalso. apply H. reflexivity. Qed.

(** A run that returns has removed it. *)
Example translate_video_success_removes_temp_dir :
  FS.exists_ "/tmp/tmpk3x9"
    (fs (snd (translate_video Sample.all_fine "/videos/clip.mp4" "es" "/videos/out.mp4"
                Sample.loaded)))
  = false.
Proof. reflexivity. Qed.

(** * Further properties *)

(** ** [load_model] *)

(** X1. Whatever becomes of [whisper.load_model], [load_model] swaps the
    HTTPS context of [ssl] for the unverified one and back, once each, in
    that order: the [finally] part restores it on every way out. *)
Theorem load_model_restores_ssl_context env s :
  ssl_marks (trace (snd (load_model env s))) = (ssl_marks (trace s) ++ [false; true])%list.
Proof.
  unfold load_model, try_finally, try_except, set_model, external, print, bind, emit,
    lift_outcome, get_self, set_self, ret, raise.
  cbn [fst snd trace self fs].
  destruct (whisper_load_model env "base") as [m|[c msg|code]]; cbn [fst snd trace self fs];
    unfold ssl_marks; rewrite <- ?app_assoc; rewrite flat_map_app; reflexivity.
Qed.

(** X2. [load_model] stores the model it is given and returns; when
    [whisper.load_model] raises, the same exception goes on to the caller
    (the process is not ended, unlike in [translate_text]) and [self] is as
    before. *)
Theorem load_model_outcome env s :
  match whisper_load_model env "base" with
  | Return m =>
      fst (load_model env s) = Return tt
      /\ self (snd (load_model env s)) = mkVideoTranslator (Some m) (temp_dir (self s))
  | Raise e =>
      fst (load_model env s) = Raise e
      /\ self (snd (load_model env s)) = self s
  end.
Proof.
  unfold load_model, try_finally, try_except, set_model, external, print, bind, emit,
    lift_outcome, get_self, set_self, ret, raise.
  cbn [fst snd trace self fs].
  destruct (whisper_load_model env "base") as [m|[c msg|code]]; cbn [fst snd trace self fs];
    split; reflexivity.
Qed.

Example load_model_failure_reaches_caller :
  fst (load_model Faults.loader_down Sample.start)
  = Raise (Exc "URLError" "certificate verify failed")
  /\ ssl_marks (trace (snd (load_model Faults.loader_down Sample.start))) = [false; true].
Proof. split; reflexivity. Qed.

(** ** [main] *)

Lemma main_after_check env args s :
  main env args s
  = if FS.exists_ (input args) (fs s)
    then translate_video env (input args) (language args)
           (PyPath.to_string (output_path_of args))
           (mkState new_VideoTranslator (fs s) (trace s))
    else (Raise (SystemExit 1),
          mkState (self s) (fs s)
            (trace s ++ [Print ("Error: Input file '" ++ input args ++ "' not found!")])).
Proof.
  unfold main, os_path_exists, print, sys_exit, raise.
  unfold bind at 1 2. unfold get_fs at 1. unfold ret at 1. cbn [fst snd].
  destruct (FS.exists_ (input args) (fs s)); cbn [negb]; reflexivity.
Qed.

(** X3. When the input path does not exist, [main] prints an error and ends
    the process with status 1 at once: no directory is made, no external
    library is called, and the file system is as before. *)
Theorem main_missing_input env args s :
  FS.exists_ (input args) (fs s) = false ->
  main env args s
  = (Raise (SystemExit 1),
     mkState (self s) (fs s)
       (trace s ++ [Print ("Error: Input file '" ++ input args ++ "' not found!")])).
Proof. intros H. rewrite main_after_check, H. reflexivity. Qed.

Lemma main_missing_input_witness :
  fst (main Sample.all_fine {| input := "/videos/absent.mp4"; language := "es"; output := None |}
         Sample.start)
  = Raise (SystemExit 1).
Proof.
  rewrite (@main_missing_input Sample.all_fine
             {| input := "/videos/absent.mp4"; language := "es"; output := None |}
             Sample.start eq_refl).
  reflexivity.
Defined.

(** X4. With [print] not failing, [main] returns or ends the process: no
    exception of class [Exception] comes out of it, whatever the external
    libraries do. *)
Theorem main_returns_or_exits env args s :
  fst (main env args s) = Return tt
  \/ exists code, fst (main env args s) = Raise (SystemExit code).
Proof.
  rewrite main_after_check. destruct (FS.exists_ (input args) (fs s)).
  - pose proof (translate_video_never_raises_exception env (input args) (language args)
                  (PyPath.to_string (output_path_of args))
                  (mkState new_VideoTranslator (fs s) (trace s))) as H.
    destruct (fst (translate_video _ _ _ _ _)) as [[]|[cls msg|code]].
    + left. reflexivity.
    + exfalso. exact (H cls msg eq_refl).
    + right. exists code. reflexivity.
  - right. exists 1%Z. reflexivity.
Qed.

(** ** The stages in the front-end *)


Example translate_block_stage_order_success :
  stage_and_success_marks (trace (snd (translate_block Sample.all_fine "clip.mp4" "sv"
                                         Sample.ready)))
  = (pipeline_marks ++ [success_banner])%list.
Proof. reflexivity. Qed.

(** ** The normalised language code *)

(** X6. For a language code of code points below 256, the code under which
    [generate_audio] looks up a voice has at most two characters (all of a
    shorter argument) and is in lower case. *)
Theorem lang_code_of_normal (tl : string) :
  String.length (lang_code_of tl) = Nat.min 2 (String.length tl)
  /\ PyStr.lower (lang_code_of tl) = lang_code_of tl.
Proof.
  unfold lang_code_of. destruct (Nat.leb_spec 2 (String.length tl)) as [H|H].
  - split; [|apply lower_idempotent].
    rewrite length_lower, length_take by exact H. symmetry. apply Nat.min_l. exact H.
  - split; [|apply lower_idempotent].
    rewrite length_lower. symmetry. apply Nat.min_r. lia.
Qed.

(** ** The name of the translated file *)

Lemma take_drop (i : nat) (n : string) : PyStr.take i n ++ PyStr.drop i n = n.
Proof.
  unfold PyStr.take. revert n. induction i as [|i IH]; intros n.
  - destruct n; reflexivity.
  - destruct n as [|c n]; [reflexivity|]. cbn. rewrite IH. reflexivity.
Qed.

Lemma length_append (a b : string) :
  String.length (a ++ b) = String.length a + String.length b.
Proof. induction a as [|c a IH]; cbn; [reflexivity | rewrite IH; reflexivity]. Qed.

Lemma stem_suffix_name (p : PyPath.Path) : PyPath.stem p ++ PyPath.suffix p = PyPath.name p.
Proof.
  unfold PyPath.stem, PyPath.suffix. cbv zeta.
  destruct (PyStr.rfind PyPath.dot (PyPath.name p)) as [i|].
  - destruct ((0 <? i) && (i <? String.length (PyPath.name p) - 1))%nat.
    + apply take_drop.
    + induction (PyPath.name p) as [|c n IH]; cbn; [reflexivity | rewrite IH; reflexivity].
  - induction (PyPath.name p) as [|c n IH]; cbn; [reflexivity | rewrite IH; reflexivity].
Qed.

(** X7. The stem and the suffix that [pathlib] gives for a path make up its
    name again; so the default output name of [main] and of the front-end is
    the name of the input with "_translated_" and the language code put in
    before the suffix, and is longer than it by twelve characters and the
    code: the two are never the same name. *)
Theorem translated_name_length (p : PyPath.Path) (language : string) :
  PyPath.stem p ++ PyPath.suffix p = PyPath.name p
  /\ String.length (translated_name p language)
     = String.length (PyPath.name p) + 12 + String.length language.
Proof.
  split; [apply stem_suffix_name|].
  unfold translated_name. rewrite <- (stem_suffix_name p).
  rewrite !length_append. cbn. lia.
Qed.

Example translated_name_example :
  translated_name (PyPath.of_string "/data/talk.final.mov") "pt" = "talk.final_translated_pt.mov"
  /\ translated_name (PyPath.of_string ".hidden") "pt" = ".hidden_translated_pt"
  /\ translated_name (PyPath.of_string "noext.") "pt" = "noext._translated_pt".
Proof. repeat split. Qed.

(** ** The files of a run lie in its temporary directory *)





(** ** The voice: further cases *)

(** X9. Every language code that is a key of the table is its own
    normalised form and resolves to the voice listed for it, without any
    effect: no entry of the table is out of reach or hidden by another. *)
Theorem voice_map_entries_resolve env text k v s :
  In (k, v) voice_map ->
  lang_code_of k = k /\ resolve_voice env text k s = (Return v, s).
Proof.
  intros H. cbn in H.
  repeat (destruct H as [H|H]; [injection H as <- <-; split; reflexivity|]).
  destruct H.
Qed.

Lemma voice_map_entries_resolve_witness :
  resolve_voice Sample.all_fine "ola" "pt" Sample.loaded
  = (Return "pt-BR-FranciscaNeural", Sample.loaded).
Proof.
  apply (@voice_map_entries_resolve Sample.all_fine "ola" "pt" "pt-BR-FranciscaNeural"
           Sample.loaded).
  cbn. do 5 right. left. reflexivity.
Defined.

(** X10. When the language is not in the table and [edge_tts.list_voices]
    raises, [generate_audio] raises the same exception: it does not go on
    with the default voice, synthesizes nothing and writes no file. *)
Theorem generate_audio_catalog_failure env text tl out s e :
  PyDict.mem (lang_code_of tl) voice_map = false ->
  communicate env text default_voice = Return tt ->
  list_voices env = Raise e ->
  fst (generate_audio env text tl out s) = Raise e
  /\ fs (snd (generate_audio env text tl out s)) = fs s
  /\ saves (trace (snd (generate_audio env text tl out s))) = saves (trace s).
Proof.
  intros Hmiss Hcomm Hlist.
  assert (Hrun : generate_audio env text tl out s
                 = (Raise e,
                    mkState (self s) (fs s)
                      (trace s ++ [Enter Synthesize;
                                   Print ("Generating audio in " ++ tl ++ "...");
                                   Call (Communicate text default_voice);
                                   Call ListVoices]))).
  { unfold generate_audio. unfold bind at 1 2 3. cbn [emit print fst snd].
    rewrite (@resolve_voice_table_miss env text tl _ Hmiss).
    unfold external, print, bind, emit, lift_outcome, ret. cbn [fst snd trace self fs].
    rewrite Hcomm, Hlist. cbn [fst snd trace self fs]. rewrite <- !app_assoc. reflexivity. }
  rewrite Hrun. cbn [fst snd fs trace]. repeat split.
  unfold saves. rewrite flat_map_app. cbn. apply app_nil_r.
Qed.

Lemma generate_audio_catalog_failure_witness :
  fst (generate_audio Faults.catalog_down "hej" "sv" "/tmp/tmpk3x9/translated_audio.mp3"
         Sample.loaded)
  = Raise (Exc "ClientConnectorError" "Cannot connect to host").
Proof.
  exact (proj1 (@generate_audio_catalog_failure Faults.catalog_down "hej" "sv"
                  "/tmp/tmpk3x9/translated_audio.mp3" Sample.loaded _ eq_refl eq_refl eq_refl)).
Defined.

(** ** Invariants of the methods: rules *)

Section StableRules.

Variables (J : VideoTranslator -> Prop) (F : FS.t -> Prop).

Lemma stable_ret {A} (a : A) : stable J F (ret a).
Proof. intros s H. exact H. Qed.

Lemma stable_raise {A} (e : pyexc) : stable J F (A := A) (raise e).
Proof. intros s H. exact H. Qed.

Lemma stable_lift_outcome {A} (r : outcome A) : stable J F (lift_outcome r).
Proof. intros s H. exact H. Qed.

Lemma stable_emit (e : event) : stable J F (emit e).
Proof. intros s H. exact H. Qed.

Lemma stable_get_self : stable J F get_self.
Proof. intros s H. exact H. Qed.

Lemma stable_get_temp_dir : stable J F get_temp_dir.
Proof. intros s H. exact H. Qed.

Lemma stable_get_model : stable J F get_model.
Proof. intros s H. exact H. Qed.

Lemma stable_set_model (m : whisper_model) :
  (forall o x, J o -> J (mkVideoTranslator (Some x) (temp_dir o))) ->
  stable J F (set_model m).
Proof. intros HJ s [H1 H2]. split; [apply HJ; exact H1 | exact H2]. Qed.

Lemma stable_set_temp_dir (d : string) :
  (forall o, J o -> J (mkVideoTranslator (model o) (Some d))) ->
  stable J F (set_temp_dir d).
Proof. intros HJ s [H1 H2]. split; [apply HJ; exact H1 | exact H2]. Qed.

Lemma stable_creates (p : string) :
  (forall q f, F f -> F (FS.create q f)) -> stable J F (creates p).
Proof. intros HF s [H1 H2]. split; [exact H1 | apply HF; exact H2]. Qed.

Lemma stable_shutil_rmtree (d : string) :
  (forall f, F f -> F (filter (fun p => negb (FS.within d p)) f)) ->
  stable J F (shutil_rmtree (Some d)).
Proof.
  intros HF s [H1 H2].
  unfold shutil_rmtree, external, bind, emit, lift_outcome, get_fs, set_fs, ret, FS.rmtree.
  cbn [fst snd trace self fs].
  destruct (FS.exists_ d (fs s)); cbn [fst snd trace self fs]; split;
    [exact H1 | apply HF; exact H2 | exact H1 | exact H2].
Qed.

Lemma stable_bind {A C} (m : M (state VideoTranslator) A) (k : A -> M (state VideoTranslator) C) :
  stable J F m -> (forall a, stable J F (k a)) -> stable J F (bind m k).
Proof.
  intros Hm Hk s H. specialize (Hm s H). unfold bind.
  destruct (m s) as [[a|e] s1]; cbn [fst snd] in *; [apply Hk; exact Hm | exact Hm].
Qed.

(** A read of [self.temp_dir] under an invariant that fixes it. *)
Lemma stable_bind_get_temp_dir {C} (d : string) (k : option string -> M (state VideoTranslator) C) :
  (forall o, J o -> temp_dir o = Some d) ->
  stable J F (k (Some d)) -> stable J F (bind get_temp_dir k).
Proof.
  intros HJ Hk s H. unfold get_temp_dir, bind, get_self, ret. cbn [fst snd].
  rewrite (HJ (self s) (proj1 H)). apply Hk. exact H.
Qed.

Lemma stable_try_except {A} (body : M (state VideoTranslator) A)
      (handler : string -> string -> M (state VideoTranslator) A) :
  stable J F body -> (forall cls msg, stable J F (handler cls msg)) ->
  stable J F (try_except body handler).
Proof.
  intros Hb Hh s H. specialize (Hb s H). unfold try_except.
  destruct (body s) as [[a|[cls msg|code]] s1]; cbn [fst snd] in *;
    [exact Hb | apply Hh; exact Hb | exact Hb].
Qed.

Lemma stable_try_finally {A} (body : M (state VideoTranslator) A)
      (final : M (state VideoTranslator) unit) :
  stable J F body -> stable J F final -> stable J F (try_finally body final).
Proof.
  intros Hb Hf s H. specialize (Hb s H). unfold try_finally.
  destruct (body s) as [r s1]; cbn [fst snd] in *. specialize (Hf s1 Hb).
  destruct (final s1) as [[u|e] s2]; exact Hf.
Qed.

End StableRules.

Section OnReturnRules.

Context {O : Type}.

Lemma on_return_bind {A C} (P R Q : state O -> Prop) (m : M (state O) A)
      (k : A -> M (state O) C) :
  on_return P m R -> (forall a, on_return R (k a) Q) -> on_return P (bind m k) Q.
Proof.
  intros Hm Hk s H. specialize (Hm s H). unfold bind.
  destruct (m s) as [[a|e] s1]; cbn [fst snd] in *; [apply Hk; exact Hm | exact I].
Qed.

(** The statement before does not matter when nothing is asked of the
    state. *)
Lemma on_return_skip {A C} (Q : state O -> Prop) (m : M (state O) A) (k : A -> M (state O) C) :
  (forall a, on_return (fun _ => True) (k a) Q) -> on_return (fun _ => True) (bind m k) Q.
Proof.
  intros Hk s _. unfold bind.
  destruct (m s) as [[a|e] s1]; cbn [fst snd] in *; [apply Hk; exact I | exact I].
Qed.

Lemma on_return_weaken {A} (P P' Q : state O -> Prop) (m : M (state O) A) :
  (forall s, P' s -> P s) -> on_return P m Q -> on_return P' m Q.
Proof. intros HP Hm s H. apply Hm. apply HP. exact H. Qed.

End OnReturnRules.

Lemma on_return_bind_stable {A C} (J : VideoTranslator -> Prop) (F : FS.t -> Prop)
      (Q : state VideoTranslator -> Prop) (m : M (state VideoTranslator) A)
      (k : A -> M (state VideoTranslator) C) :
  stable J F m -> (forall a, on_return (holds J F) (k a) Q) ->
  on_return (holds J F) (bind m k) Q.
Proof.
  intros Hm Hk s H. specialize (Hm s H). unfold bind.
  destruct (m s) as [[a|e] s1]; cbn [fst snd] in *; [apply Hk; exact Hm | exact I].
Qed.

(** The closure facts that the rules ask of an invariant. *)
Create HintDb inv discriminated.

Lemma has_temp_dir_set_model d o x :
  has_temp_dir d o -> has_temp_dir d (mkVideoTranslator (Some x) (temp_dir o)).
Proof. intros H. exact H. Qed.

Lemma has_temp_dir_temp_dir d o : has_temp_dir d o -> temp_dir o = Some d.
Proof. intros H. exact H. Qed.

Lemma is_ready_set_model d o x :
  is_ready d o -> is_ready d (mkVideoTranslator (Some x) (temp_dir o)).
Proof. intros [H _]. split; [exact H | exists x; reflexivity]. Qed.

Lemma is_ready_temp_dir d o : is_ready d o -> temp_dir o = Some d.
Proof. intros [H _]. exact H. Qed.

Lemma present_create p q f : present p f -> present p (FS.create q f).
Proof. apply exists_create_other. Qed.

Lemma anything_holds f : anything f.
Proof. exact I. Qed.

#[local] Hint Resolve has_temp_dir_set_model has_temp_dir_temp_dir is_ready_set_model
  is_ready_temp_dir present_create anything_holds : inv.

Ltac side := solve [ eauto with inv ].

Ltac stable_go :=
  lazymatch goal with
  | |- stable _ _ (match ?x with _ => _ end) =>
      first [ progress cbv beta iota | destruct x ]; stable_go
  | |- stable _ _ (bind get_temp_dir _) =>
      first [ eapply stable_bind_get_temp_dir; [ side | stable_go ]
            | apply stable_bind; [ stable_go | intros; stable_go ] ]
  | |- stable _ _ (bind _ _) => apply stable_bind; [ stable_go | intros; stable_go ]
  | |- stable _ _ (ret _) => apply stable_ret
  | |- stable _ _ (raise _) => apply stable_raise
  | |- stable _ _ (lift_outcome _) => apply stable_lift_outcome
  | |- stable _ _ (emit _) => apply stable_emit
  | |- stable _ _ get_self => apply stable_get_self
  | |- stable _ _ get_temp_dir => apply stable_get_temp_dir
  | |- stable _ _ get_model => apply stable_get_model
  | |- stable _ _ (set_model _) => apply stable_set_model; side
  | |- stable _ _ (set_temp_dir _) => apply stable_set_temp_dir; side
  | |- stable _ _ (creates _) => apply stable_creates; side
  | |- stable _ _ (shutil_rmtree (Some _)) => apply stable_shutil_rmtree; side
  | |- stable _ _ (try_except _ _) =>
      apply stable_try_except; [ stable_go | intros; stable_go ]
  | |- stable _ _ (try_finally _ _) =>
      apply stable_try_finally; [ stable_go | stable_go ]
  end.

(** The statements of the methods, down to the reads and writes of [self]
    and of the file system. *)
Ltac unfold_stages :=
  unfold ensure_model, load_model, extract_audio, transcribe_audio, translate_text,
    generate_audio, resolve_voice, create_translated_video, join_temp_dir,
    external, print, sys_exit;
  cbv zeta.

(** ** What [translate_video] does to the file system *)

Lemma try_except_bind_return {S A C} (m : M S A) (k : A -> M S C)
      (h : string -> string -> M S C) (s s1 : S) (a : A) :
  m s = (Return a, s1) -> try_except (bind m k) h s = try_except (k a) h s1.
Proof. intros H. unfold try_except, bind. rewrite H. reflexivity. Qed.

Lemma try_except_returned {S A} (body : M S A) (h : string -> string -> M S A) (s : S) (a : A) :
  (forall cls msg s1, exists e, fst (h cls msg s1) = Raise e) ->
  fst (try_except body h s) = Return a ->
  try_except body h s = body s.
Proof.
  intros Hh. unfold try_except. destruct (body s) as [[b|[cls msg|code]] s1]; try reflexivity.
  destruct (Hh cls msg s1) as [e He]. rewrite He. discriminate.
Qed.

Lemma make_temp_dir_returns env s d :
  mkdtemp env (fs s) = Return d ->
  make_temp_dir env s
  = (Return tt,
     mkState (mkVideoTranslator (model (self s)) (Some d)) (FS.create d (fs s))
       (trace s ++ [Call Mkdtemp; Print ("Using temporary directory: " ++ d)])).
Proof.
  intros H. unfold make_temp_dir, set_temp_dir, creates, external, print, bind, emit,
    lift_outcome, get_fs, set_fs, get_self, set_self, ret.
  cbn [fst snd trace self fs]. rewrite H. cbn [fst snd trace self fs].
  rewrite <- !app_assoc. reflexivity.
Qed.

Lemma make_temp_dir_raises env s e :
  mkdtemp env (fs s) = Raise e ->
  make_temp_dir env s = (Raise e, mkState (self s) (fs s) (trace s ++ [Call Mkdtemp])).
Proof.
  intros H. unfold make_temp_dir, external, bind, emit, lift_outcome, get_fs, ret.
  cbn [fst snd trace self fs]. rewrite H. reflexivity.
Qed.

Lemma exists_filter_outside (d p : string) (f : FS.t) :
  FS.within d p = false -> FS.exists_ p f = true ->
  FS.exists_ p (filter (fun q => negb (FS.within d q)) f) = true.
Proof.
  intros Hout. unfold FS.exists_. induction f as [|q f IH]; cbn; [discriminate|].
  destruct (String.eqb_spec p q) as [<-|Hne]; cbn.
  - intros _. rewrite Hout. cbn. rewrite String.eqb_refl. reflexivity.
  - intros H. destruct (FS.within d q); cbn; [apply IH; exact H|].
    destruct (String.eqb_spec p q); [contradiction | apply IH; exact H].
Qed.

Lemma exists_filter_within (d p : string) (f : FS.t) :
  FS.within d p = true ->
  FS.exists_ p (filter (fun q => negb (FS.within d q)) f) = false.
Proof.
  intros Hin. unfold FS.exists_. induction f as [|q f IH]; cbn; [reflexivity|].
  destruct (FS.within d q) eqn:W; cbn; [exact IH|].
  destruct (String.eqb_spec p q) as [->|_]; [congruence | exact IH].
Qed.

(** X11. [translate_video] removes nothing but its own temporary directory:
    a path that exists before the run, and is not in the directory that
    [tempfile.mkdtemp] gives, exists after it, however the run ends. *)
Theorem translate_video_spares_other_paths env v tl out s p :
  FS.exists_ p (fs s) = true ->
  (forall d, mkdtemp env (fs s) = Return d -> FS.within d p = false) ->
  FS.exists_ p (fs (snd (translate_video env v tl out s))) = true.
Proof.
  intros Hp Hout. unfold translate_video.
  destruct (mkdtemp env (fs s)) as [d|e] eqn:Hd.
  - erewrite try_except_bind_return by (apply make_temp_dir_returns; exact Hd).
    assert (Hrm : forall f, present p f -> present p (filter (fun q => negb (FS.within d q)) f)).
    { intros f. apply exists_filter_outside. apply Hout. reflexivity. }
    match goal with
    | |- context [try_except ?b ?h ?s1] =>
        assert (Hst : stable (has_temp_dir d) (present p) (try_except b h))
    end.
    { unfold_stages. stable_go. }
    apply Hst. split; [reflexivity|]. cbn [fs]. apply present_create. exact Hp.
  - unfold try_except, bind at 1. rewrite (@make_temp_dir_raises env s e Hd).
    destruct e as [cls msg|code]; exact Hp.
Qed.

Lemma translate_video_spares_other_paths_witness :
  FS.exists_ "/videos/clip.mp4"
    (fs (snd (translate_video (Sample.failing_at Remux) "/videos/clip.mp4" "es"
                "/videos/out.mp4" Sample.loaded)))
  = true.
Proof.
  apply translate_video_spares_other_paths; [reflexivity|].
  intros d H. injection H as <-. reflexivity.
Defined.

Ltac to_last_stage :=
  lazymatch goal with
  | |- on_return _ (bind (create_translated_video _ _ _ _) _) _ => idtac
  | |- on_return _ (match ?x with _ => _ end) _ => destruct x; to_last_stage
  | |- on_return _ (bind _ _) _ =>
      apply on_return_bind_stable; [ unfold_stages; stable_go | intros; to_last_stage ]
  end.

Lemma create_translated_video_writes_output env d v a out :
  on_return (holds (has_temp_dir d) anything) (create_translated_video env v a out)
    (fun s => has_temp_dir d (self s) /\ present out (fs s)).
Proof.
  intros s [HJ _].
  unfold create_translated_video, join_temp_dir, get_temp_dir, creates, external, print, bind,
    emit, lift_outcome, get_self, get_fs, set_fs, ret, raise.
  cbn [fst snd trace self fs]. rewrite HJ.
  destruct (video_file_clip env v); cbn [fst snd trace self fs]; [|exact I].
  destruct (audio_file_clip env a); cbn [fst snd trace self fs]; [|exact I].
  destruct (write_videofile env v a out); cbn [fst snd trace self fs]; [|exact I].
  split; [exact HJ|]. apply exists_create_same.
Qed.

Lemma cleanup_after_last_stage d out :
  on_return (fun s => has_temp_dir d (self s) /\ present out (fs s))
    (print "Cleaning up temporary files..." ;;
     d' <- get_temp_dir ;;
     shutil_rmtree d' ;;
     print ("Success! Translated video saved to: " ++ out))
    (cleaned_up d out).
Proof.
  intros s [HJ HF].
  unfold shutil_rmtree, get_temp_dir, external, print, bind, emit, lift_outcome, get_self,
    get_fs, set_fs, ret, raise, FS.rmtree.
  cbn [fst snd trace self fs]. rewrite HJ.
  destruct (FS.exists_ d (fs s)) eqn:E;
    repeat (progress (cbn [fst snd trace self fs]; rewrite ?E)); [|exact I].
  split.
  - intros p Hp. apply exists_filter_within. exact Hp.
  - intros Hout. apply exists_filter_outside; [exact Hout | exact HF].
Qed.

(** X12. When [translate_video] returns, nothing is left of the directory
    that [tempfile.mkdtemp] gave, nor of any path under it, and the output
    video is in place (unless the output path was itself put under that
    directory). *)
Theorem translate_video_success_cleans_up env v tl out s d :
  mkdtemp env (fs s) = Return d ->
  fst (translate_video env v tl out s) = Return tt ->
  cleaned_up d out (snd (translate_video env v tl out s)).
Proof.
  intros Hd. unfold translate_video.
  erewrite try_except_bind_return by (apply make_temp_dir_returns; exact Hd).
  intros Hret. erewrite try_except_returned in * by (first [exact Hret | intros; eexists; reflexivity]).
  match goal with
  | |- cleaned_up d out (snd (?b ?s1)) =>
      assert (Hb : on_return (holds (has_temp_dir d) anything) b (cleaned_up d out))
  end.
  { cbv beta. to_last_stage.
    eapply on_return_bind;
      [ apply create_translated_video_writes_output
      | intros; apply cleanup_after_last_stage ]. }
  match type of Hret with fst (?b ?s1) = _ => specialize (Hb s1); rewrite Hret in Hb end.
  apply Hb. split; [reflexivity | exact I].
Qed.

Lemma translate_video_success_cleans_up_witness :
  cleaned_up "/tmp/tmpk3x9" "/videos/out.mp4"
    (snd (translate_video Sample.all_fine "/videos/clip.mp4" "es" "/videos/out.mp4"
            Sample.start)).
Proof.
  apply translate_video_success_cleans_up; reflexivity.
Defined.

(** ** When every library returns *)

Section TotalRules.

Variables (J : VideoTranslator -> Prop) (F : FS.t -> Prop).

Lemma total_ret {A} (a : A) : total J F (ret a).
Proof. intros s H. split; [exists a; reflexivity | exact H]. Qed.

Lemma total_emit (e : event) : total J F (emit e).
Proof. intros s H. split; [exists tt; reflexivity | exact H]. Qed.

Lemma total_get_self : total J F get_self.
Proof. intros s H. split; [eexists; reflexivity | exact H]. Qed.

Lemma total_lift_outcome {A} (r : outcome A) :
  (exists a, r = Return a) -> total J F (lift_outcome r).
Proof. intros [a ->] s H. split; [exists a; reflexivity | exact H]. Qed.

Lemma total_set_model (m : whisper_model) :
  (forall o x, J o -> J (mkVideoTranslator (Some x) (temp_dir o))) ->
  total J F (set_model m).
Proof.
  intros HJ s [H1 H2]. split; [exists tt; reflexivity|].
  split; [apply HJ; exact H1 | exact H2].
Qed.

Lemma total_creates (p : string) :
  (forall q f, F f -> F (FS.create q f)) -> total J F (creates p).
Proof.
  intros HF s [H1 H2]. split; [exists tt; reflexivity|].
  split; [exact H1 | apply HF; exact H2].
Qed.

Lemma total_bind {A C} (m : M (state VideoTranslator) A) (k : A -> M (state VideoTranslator) C) :
  total J F m -> (forall a, total J F (k a)) -> total J F (bind m k).
Proof.
  intros Hm Hk s H. destruct (Hm s H) as [[a Ha] Hs]. unfold bind.
  destruct (m s) as [r s1]; cbn [fst snd] in *. subst r. apply Hk. exact Hs.
Qed.

Lemma total_bind_get_temp_dir {C} (d : string) (k : option string -> M (state VideoTranslator) C) :
  (forall o, J o -> temp_dir o = Some d) ->
  total J F (k (Some d)) -> total J F (bind get_temp_dir k).
Proof.
  intros HJ Hk s H. unfold get_temp_dir, bind, get_self, ret. cbn [fst snd].
  rewrite (HJ (self s) (proj1 H)). apply Hk. exact H.
Qed.

Lemma total_bind_get_model {C} (k : option whisper_model -> M (state VideoTranslator) C) :
  (forall o, J o -> exists m, model o = Some m) ->
  (forall m, total J F (k (Some m))) -> total J F (bind get_model k).
Proof.
  intros HJ Hk s H. unfold get_model, bind, get_self, ret. cbn [fst snd].
  destruct (HJ (self s) (proj1 H)) as [m ->]. apply Hk. exact H.
Qed.

Lemma total_try_except {A} (body : M (state VideoTranslator) A)
      (handler : string -> string -> M (state VideoTranslator) A) :
  total J F body -> total J F (try_except body handler).
Proof.
  intros Hb s H. destruct (Hb s H) as [[a Ha] Hs]. unfold try_except.
  destruct (body s) as [r s1]; cbn [fst snd] in *. subst r.
  split; [exists a; reflexivity | exact Hs].
Qed.

Lemma total_try_finally {A} (body : M (state VideoTranslator) A)
      (final : M (state VideoTranslator) unit) :
  total J F body -> total J F final -> total J F (try_finally body final).
Proof.
  intros Hb Hf s H. destruct (Hb s H) as [[a Ha] Hs]. unfold try_finally.
  destruct (body s) as [r s1]; cbn [fst snd] in *. subst r.
  destruct (Hf s1 Hs) as [[u Hu] Hs2].
  destruct (final s1) as [r2 s2]; cbn [fst snd] in *. subst r2.
  split; [exists a; reflexivity | exact Hs2].
Qed.

(** [m] returns from every state in which the invariant holds. *)
Lemma returns_bind {A C} (m : M (state VideoTranslator) A)
      (k : A -> M (state VideoTranslator) C) :
  total J F m ->
  (forall a s, holds J F s -> exists c, fst (k a s) = Return c) ->
  forall s, holds J F s -> exists c, fst (bind m k s) = Return c.
Proof.
  intros Hm Hk s H. destruct (Hm s H) as [[a Ha] Hs]. unfold bind.
  destruct (m s) as [r s1]; cbn [fst snd] in *. subst r. apply Hk. exact Hs.
Qed.

End TotalRules.

Lemma is_ready_model d o : is_ready d o -> exists m, model o = Some m.
Proof. intros [_ H]. exact H. Qed.

#[local] Hint Resolve is_ready_model coop_mkdtemp coop_load_model coop_video_file_clip
  coop_write_audiofile coop_transcribe coop_translate coop_communicate coop_list_voices
  coop_save coop_audio_file_clip coop_write_videofile : inv.

Ltac total_go :=
  lazymatch goal with
  | |- total _ _ (match ?x with _ => _ end) =>
      first [ progress cbv beta iota | destruct x ]; total_go
  | |- total _ _ (bind get_temp_dir _) =>
      eapply total_bind_get_temp_dir; [ side | total_go ]
  | |- total _ _ (bind get_model _) =>
      apply total_bind_get_model; [ side | intros; total_go ]
  | |- total _ _ (bind _ _) => apply total_bind; [ total_go | intros; total_go ]
  | |- total _ _ (ret _) => apply total_ret
  | |- total _ _ (lift_outcome _) => apply total_lift_outcome; side
  | |- total _ _ (emit _) => apply total_emit
  | |- total _ _ get_self => apply total_get_self
  | |- total _ _ (set_model _) => apply total_set_model; side
  | |- total _ _ (creates _) => apply total_creates; side
  | |- total _ _ (try_except _ _) => apply total_try_except; total_go
  | |- total _ _ (try_finally _ _) => apply total_try_finally; [ total_go | total_go ]
  end.

Lemma ensure_model_makes_ready env d s :
  cooperative env -> has_temp_dir d (self s) ->
  exists s1, ensure_model env s = (Return tt, s1) /\ is_ready d (self s1) /\ fs s1 = fs s.
Proof.
  intros Hc HJ. unfold ensure_model, get_model. unfold bind at 1 2. unfold get_self at 1.
  unfold ret at 1. cbn [fst snd].
  destruct (model (self s)) as [m|] eqn:Hm.
  - exists s. split; [reflexivity|]. split; [|reflexivity]. split; [exact HJ | exists m; exact Hm].
  - destruct (coop_load_model Hc "base") as [m Hload].
    unfold load_model, try_finally, try_except, set_model, external, print, bind, emit,
      lift_outcome, get_self, set_self, ret, raise.
    cbn [fst snd trace self fs]. rewrite Hload. cbn [fst snd trace self fs].
    eexists. split; [reflexivity|]. cbn [self fs]. split; [|reflexivity].
    split; [exact HJ | exists m; reflexivity].
Qed.

Lemma cleanup_returns d out s :
  has_temp_dir d (self s) -> present d (fs s) ->
  exists c,
    fst ((print "Cleaning up temporary files..." ;;
          d' <- get_temp_dir ;;
          shutil_rmtree d' ;;
          print ("Success! Translated video saved to: " ++ out)) s) = Return c.
Proof.
  intros HJ HF.
  unfold shutil_rmtree, get_temp_dir, external, print, bind, emit, lift_outcome, get_self,
    get_fs, set_fs, ret, raise, FS.rmtree.
  cbn [fst snd trace self fs]. rewrite HJ.
  repeat (progress (cbn [fst snd trace self fs]; rewrite ?HF)).
  eexists. reflexivity.
Qed.

Lemma all_stages_return env d v tl out :
  cooperative env ->
  forall s, holds (is_ready d) (present d) s ->
    exists c,
      fst ((audio_path <- extract_audio env v ;;
            ' (text, segments) <- transcribe_audio env audio_path ;;
            print ("Original text: " ++ excerpt 100 text) ;;
            translated_text <- translate_text env text tl ;;
            print ("Translated text: " ++ excerpt 100 translated_text) ;;
            new_audio_path <- join_temp_dir "translated_audio.mp3" ;;
            generate_audio env translated_text tl new_audio_path ;;
            create_translated_video env v new_audio_path out ;;
            print "Cleaning up temporary files..." ;;
            d' <- get_temp_dir ;;
            shutil_rmtree d' ;;
            print ("Success! Translated video saved to: " ++ out)) s) = Return c.
Proof.
  intros Hc.
  apply returns_bind; [unfold_stages; total_go|]. intros audio_path.
  apply returns_bind; [unfold_stages; total_go|]. intros [text segments].
  apply returns_bind; [unfold_stages; total_go|]. intros _.
  apply returns_bind; [unfold_stages; total_go|]. intros translated_text.
  apply returns_bind; [unfold_stages; total_go|]. intros _.
  apply returns_bind; [unfold_stages; total_go|]. intros new_audio_path.
  apply returns_bind; [unfold_stages; total_go|]. intros _.
  apply returns_bind; [unfold_stages; total_go|]. intros _.
  intros s [[HJ _] HF]. apply (@cleanup_returns d out s); assumption.
Qed.

Lemma try_except_return {S A} (body : M S A) (h : string -> string -> M S A) (s : S) (a : A) :
  fst (body s) = Return a -> fst (try_except body h s) = Return a.
Proof. unfold try_except. destruct (body s) as [[b|e] s1]; cbn; [trivial | discriminate]. Qed.

Lemma bind_return {S A C} (m : M S A) (k : A -> M S C) (s s1 : S) (a : A) :
  m s = (Return a, s1) -> bind m k s = k a s1.
Proof. intros H. unfold bind. rewrite H. reflexivity. Qed.

Lemma translate_video_runs_through env v tl out s :
  cooperative env -> fst (translate_video env v tl out s) = Return tt.
Proof.
  intros Hc. destruct (coop_mkdtemp Hc (fs s)) as [d Hd].
  unfold translate_video.
  erewrite try_except_bind_return by (apply make_temp_dir_returns; exact Hd).
  match goal with
  | |- fst (try_except ?b ?h ?s1) = _ =>
      destruct (@ensure_model_makes_ready env d s1 Hc eq_refl) as [s2 [He [Hready Hfs]]]
  end.
  apply try_except_return. erewrite bind_return by exact He.
  destruct (@all_stages_return env d v tl out Hc s2) as [[] Hret]; [|exact Hret].
  split; [exact Hready|]. unfold present. rewrite Hfs. cbn [fs]. apply exists_create_same.
Qed.

(** X13. When every external library returns whatever it is called with, and
    [print] does not fail, [translate_video] returns: nothing else in the
    method makes a run fail (the temporary directory is set before it is
    used, the model is there when the transcription needs it, and the
    directory still exists when it is removed). *)
Theorem translate_video_returns_when_libraries_do env v tl out s :
  cooperative env -> fst (translate_video env v tl out s) = Return tt.
Proof. apply translate_video_runs_through. Qed.

Lemma all_fine_cooperative : cooperative Sample.all_fine.
Proof. constructor; intros; eexists; reflexivity. Qed.

Lemma translate_video_returns_when_libraries_do_witness :
  fst (translate_video Sample.all_fine "/videos/clip.mp4" "xx" "/videos/out.mp4" Sample.start)
  = Return tt.
Proof. apply translate_video_returns_when_libraries_do. exact all_fine_cooperative. Defined.

(** ** The stages and the loading of the model, in full *)



(** C2, as amended.  When [self.model] is [None] at the start of
    [translate_video], the run itself calls [whisper.load_model("base")],
    once, after [tempfile.mkdtemp] and before the Extract stage, and goes on
    with the five stages; when a model is there, no load takes place.  A run
    that fails stops somewhere on this way; when every external library
    returns, the run goes all the way and returns. *)
Theorem translate_video_model_loading env v tl out s :
  exists new,
    setup_and_stage_marks (trace (snd (translate_video env v tl out s)))
    = (setup_and_stage_marks (trace s) ++ new)%list
    /\ initial_part new (expected_setup_and_stages (model (self s)))
    /\ (forall a, fst (translate_video env v tl out s) = Return a ->
        new = expected_setup_and_stages (model (self s)))
    /\ (cooperative env ->
        fst (translate_video env v tl out s) = Return tt
        /\ new = expected_setup_and_stages (model (self s))).
Proof.
  assert (exists P, translate_video env v tl out s = P s
                    /\ emits setup_or_stage_mark
                         (expected_setup_and_stages (model (self s))) P)
    as [P [Heq HP]].
  { destruct (model (self s)) as [m|] eqn:Hm; unfold translate_video; eexists; split.
    - apply try_except_bind_ext with (m2' := ret tt). intros a s1 H1.
      apply ensure_model_loaded with (m := m).
      rewrite (make_temp_dir_keeps_model _ _ H1). exact Hm.
    - unfold_statements. emits_go.
    - apply try_except_bind_ext with (m2' := load_model env). intros a s1 H1.
      apply ensure_model_not_loaded.
      rewrite (make_temp_dir_keeps_model _ _ H1). exact Hm.
    - unfold_statements. emits_go. }
  pose proof (@translate_video_runs_through env v tl out s) as Hrun.
  rewrite Heq in *. destruct (HP s) as [new [T R]]. exists new.
  split; [exact T|].
  assert (Hret : forall a, fst (P s) = Return a ->
                           new = expected_setup_and_stages (model (self s))).
  { intros a Ha. rewrite Ha in R. exact R. }
  split; [|split; [exact Hret|]].
  - destruct (fst (P s)) as [a|e];
      [rewrite (Hret a eq_refl); apply initial_part_refl | exact R].
  - intros Hc. split; [exact (Hrun Hc) | exact (Hret tt (Hrun Hc))].
Qed.

Lemma translate_video_model_loading_witness :
  exists new,
    setup_and_stage_marks
      (trace (snd (translate_video Sample.all_fine "/videos/clip.mp4" "es" "/videos/out.mp4"
                     Sample.start)))
    = new
    /\ new = (Call Mkdtemp :: Call (WhisperLoadModel "base") :: pipeline_marks).
Proof.
  destruct (translate_video_model_loading Sample.all_fine "/videos/clip.mp4" "es"
              "/videos/out.mp4" Sample.start) as [new [T [_ [_ H]]]].
  exists new. split; [exact T | exact (proj2 (H all_fine_cooperative))].
Defined.

(** ** The block of the front-end: the flag, the directory, the exceptions *)

(** The statements after the [try] of the block, lines 292-295. *)
Lemma finally_resets_processing {A} (body : M (state session) A) s :
  processing (self (snd (try_finally body
                           (set_processing false ;;
                            widget "progress_bar.empty" "" ;;
                            widget "status_text.empty" "") s))) = false
  /\ fst (try_finally body
            (set_processing false ;;
             widget "progress_bar.empty" "" ;;
             widget "status_text.empty" "") s) = fst (body s)
  /\ fs (snd (try_finally body
                (set_processing false ;;
                 widget "progress_bar.empty" "" ;;
                 widget "status_text.empty" "") s)) = fs (snd (body s)).
Proof.
  unfold try_finally. destruct (body s) as [r s1]. repeat split.
Qed.

(** The block up to its [try], once [tempfile.mkdtemp] has returned. *)
Ltac enter_try Hml Hd :=
  unfold translate_block;
  erewrite bind_return by reflexivity;
  rewrite Hml; cbn [negb];
  erewrite bind_return by reflexivity;
  erewrite bind_return by reflexivity;
  erewrite bind_return
    by (unfold external, bind, emit, lift_outcome; cbn [fst snd trace self fs];
        rewrite Hd; reflexivity);
  erewrite bind_return by reflexivity;
  erewrite bind_return by reflexivity.

(** X14. The block sets [processing] back to [False] on every way out of
    its [try]; [tempfile.mkdtemp] is called before the [try], after the flag
    is set, so that when it raises the exception leaves the block and the
    flag stays [True]. *)
Theorem translate_block_processing_flag env name tl s :
  model_loaded (self s) = true ->
  match mkdtemp env (fs s) with
  | Return _ => processing (self (snd (translate_block env name tl s))) = false
  | Raise e =>
      fst (translate_block env name tl s) = Raise e
      /\ processing (self (snd (translate_block env name tl s))) = true
  end.
Proof.
  intros Hml. destruct (mkdtemp env (fs s)) as [d|e] eqn:Hd.
  - enter_try Hml Hd. apply finally_resets_processing.
  - unfold translate_block.
    erewrite bind_return by reflexivity.
    rewrite Hml; cbn [negb].
    erewrite bind_return by reflexivity.
    erewrite bind_return by reflexivity.
    unfold external, bind, emit, lift_outcome. cbn [fst snd trace self fs].
    rewrite Hd. split; reflexivity.
Qed.

Lemma translate_block_processing_flag_witness :
  processing (self (snd (translate_block Faults.no_temp_dir "clip.mp4" "es" Sample.ready)))
  = true.
Proof.
  exact (proj2 (@translate_block_processing_flag Faults.no_temp_dir "clip.mp4" "es"
                  Sample.ready eq_refl)).
Defined.

(** The handler of the block, lines 285-291: it returns, and removes the
    directory when it is there. *)
Lemma error_handler_returns d msg (s : state session) :
  fst ((widget "st.error" ("Error during translation: " ++ msg) ;;
        widget "st.expander" "Error Details" ;;
        widget "st.code" "traceback.format_exc()" ;;
        cleanup_on_error d) s) = Return tt.
Proof.
  unfold cleanup_on_error, shutil_rmtree, os_path_exists, widget, external, bind, emit,
    lift_outcome, get_fs, set_fs, ret, FS.rmtree.
  cbn [fst snd trace self fs].
  destruct (FS.exists_ d (fs s)) eqn:E;
    repeat (progress (cbn [fst snd trace self fs]; rewrite ?E)); reflexivity.
Qed.

Lemma error_handler_removes d msg (s : state session) :
  present d (fs s) ->
  gone d (fs (snd ((widget "st.error" ("Error during translation: " ++ msg) ;;
                    widget "st.expander" "Error Details" ;;
                    widget "st.code" "traceback.format_exc()" ;;
                    cleanup_on_error d) s))).
Proof.
  intros E. unfold present in E.
  unfold cleanup_on_error, shutil_rmtree, os_path_exists, widget, external, bind, emit,
    lift_outcome, get_fs, set_fs, ret, FS.rmtree.
  repeat (progress (cbn [fst snd trace self fs]; rewrite ?E)).
  intros p Hp. apply exists_filter_within. exact Hp.
Qed.

(** A [try] whose handler always returns lets only a [SystemExit] out. *)
Lemma try_except_returns_or_exits {S} (body : M S unit) (h : string -> string -> M S unit) s :
  (forall cls msg s1, fst (h cls msg s1) = Return tt) ->
  fst (try_except body h s) = Return tt
  \/ exists code, fst (try_except body h s) = Raise (SystemExit code).
Proof.
  intros Hh. unfold try_except. destruct (body s) as [[[]|[cls msg|code]] s1].
  - left. reflexivity.
  - left. apply Hh.
  - right. exists code. reflexivity.
Qed.

(** X15. Once [tempfile.mkdtemp] has returned and the upload is saved, no
    exception of class [Exception] leaves the block: what a stage raises is
    caught and shown, and the handler and the [finally] part raise nothing
    themselves.  The block returns, or the process is ended by a
    [sys.exit]. *)
Theorem translate_block_returns_or_exits env name tl s d :
  mkdtemp env (fs s) = Return d ->
  fst (translate_block env name tl s) = Return tt
  \/ exists code, fst (translate_block env name tl s) = Raise (SystemExit code).
Proof.
  intros Hd. destruct (model_loaded (self s)) eqn:Hml.
  - enter_try Hml Hd.
    match goal with
    | |- context [try_finally ?b _ ?s4] =>
        rewrite (proj1 (proj2 (finally_resets_processing b s4)))
    end.
    apply try_except_returns_or_exits. intros cls msg s1. apply error_handler_returns.
  - left. unfold translate_block. erewrite bind_return by reflexivity. rewrite Hml. reflexivity.
Qed.

Lemma translate_block_returns_or_exits_witness :
  fst (translate_block (Sample.failing_at Extract) "clip.mp4" "es" Sample.ready) = Return tt
  \/ exists code,
       fst (translate_block (Sample.failing_at Extract) "clip.mp4" "es" Sample.ready)
       = Raise (SystemExit code).
Proof.
  apply (@translate_block_returns_or_exits (Sample.failing_at Extract) "clip.mp4" "es"
           Sample.ready "/tmp/tmpk3x9").
  reflexivity.
Defined.

(** ** The block of the front-end and the file system *)

Lemma keeps_on_translator p {A} (m : M (state VideoTranslator) A) :
  keeps p m -> keeps p (on_translator m).
Proof.
  intros Hm s H. unfold on_translator. destruct (translator (self s)) as [t|]; [|exact H].
  specialize (Hm (mkState t (fs s) (trace s)) H).
  destruct (m (mkState t (fs s) (trace s))) as [r s1]. exact Hm.
Qed.

Lemma keeps_get_fs p {O} : keeps p (O := O) get_fs.
Proof. intros s H. exact H. Qed.

(** [shutil.rmtree(d)] leaves what is not in [d]. *)
Lemma keeps_rmtree_outside p d {O} :
  FS.within d p = false -> keeps p (O := O) (shutil_rmtree (Some d)).
Proof.
  intros Hout s H.
  unfold shutil_rmtree, external, bind, emit, lift_outcome, get_fs, set_fs, ret, FS.rmtree.
  cbn [fst snd trace self fs].
  destruct (FS.exists_ d (fs s)); cbn [fst snd trace self fs]; [|exact H].
  apply exists_filter_outside; assumption.
Qed.

(** The statements of the block and of the methods, down to the reads and
    writes of the session and of the file system; the calls on the
    translator of the session and [shutil.rmtree] are kept. *)
Ltac unfold_block :=
  unfold cleanup_on_error, load_model, extract_audio, transcribe_audio, translate_text,
    generate_audio, resolve_voice, create_translated_video, join_temp_dir, get_model,
    get_temp_dir, set_model, set_temp_dir, set_translator, set_model_loaded, set_processing, widget,
    progress, os_path_exists, external, print, sys_exit;
  cbv zeta.

Ltac keeps_all :=
  lazymatch goal with
  | |- keeps _ (match ?x with _ => _ end) =>
      first [ progress cbv beta iota | destruct x ]; keeps_all
  | |- keeps _ (bind _ _) => apply keeps_bind; [ keeps_all | intros; keeps_all ]
  | |- keeps _ (on_translator _) => apply keeps_on_translator; keeps_all
  | |- keeps _ get_fs => apply keeps_get_fs
  | |- keeps _ (shutil_rmtree (Some _)) => apply keeps_rmtree_outside; assumption
  | |- keeps _ (try_except _ _) => apply keeps_try_except; [ keeps_all | intros; keeps_all ]
  | |- keeps _ (try_finally _ _) => apply keeps_try_finally; [ keeps_all | keeps_all ]
  | |- keeps _ _ => keeps_go
  end.

Ltac raising_all :=
  lazymatch goal with
  | |- keeps_when_raising _ (match ?x with _ => _ end) =>
      first [ progress cbv beta iota | destruct x ]; raising_all
  | |- keeps_when_raising _ (shutil_rmtree _) => apply raising_shutil_rmtree
  | |- keeps_when_raising _ (bind _ _) =>
      apply raising_bind; [ keeps_all | intros; raising_all ]
  | |- keeps_when_raising _ _ => apply keeps_weaken; keeps_all
  end.

Lemma on_return_on_translator {A} (m : M (state VideoTranslator) A) (F : FS.t -> Prop) :
  on_return (fun _ => True) m (fun s => F (fs s)) ->
  on_return (fun _ => True) (on_translator m) (fun s => F (fs s)).
Proof.
  intros Hm s _. unfold on_translator. destruct (translator (self s)) as [t|]; [|exact I].
  specialize (Hm (mkState t (fs s) (trace s)) I).
  destruct (m (mkState t (fs s) (trace s))) as [[a|e] s1]; [exact Hm | exact I].
Qed.

(** When [create_translated_video] returns, its output is there. *)
Lemma create_translated_video_output env v a out :
  on_return (fun _ => True) (create_translated_video env v a out)
    (fun s => present out (fs s)).
Proof.
  intros s _.
  unfold create_translated_video, join_temp_dir, get_temp_dir, creates, external, print, bind,
    emit, lift_outcome, get_self, get_fs, set_fs, ret, raise.
  cbn [fst snd trace self fs].
  destruct (video_file_clip env v); cbn [fst snd trace self fs]; [|exact I].
  destruct (audio_file_clip env a); cbn [fst snd trace self fs]; [|exact I].
  destruct (temp_dir (self s)); cbn [fst snd trace self fs]; [|exact I].
  destruct (write_videofile env v a out); cbn [fst snd trace self fs]; [|exact I].
  apply exists_create_same.
Qed.

(** Lines 255-282 of the block, with the output in place. *)
Lemma block_end_removes d out name :
  on_return (fun s : state session => present out (fs s))
    (widget "status_text.text" "Step 6/6: Finalizing..." ;;
     progress 100 ;;
     found <- os_path_exists out ;;
     if found then
       widget "st.success" "Translation completed successfully!" ;;
       widget "st.header" "Translated Video" ;;
       widget "st.video" out ;;
       widget "st.download_button" name ;;
       shutil_rmtree (Some d)
     else
       widget "st.error" "Output file not found. Please try again.")
    (fun s => gone d (fs s)).
Proof.
  intros s E. unfold present in E.
  unfold shutil_rmtree, os_path_exists, widget, progress, external, bind, emit, lift_outcome,
    get_fs, set_fs, ret, FS.rmtree.
  repeat (progress (cbn [fst snd trace self fs]; rewrite ?E)).
  destruct (FS.exists_ d (fs s)) eqn:Ed;
    repeat (progress (cbn [fst snd trace self fs]; rewrite ?Ed)); [|exact I].
  intros p Hp. apply exists_filter_within. exact Hp.
Qed.

Ltac to_remux :=
  lazymatch goal with
  | |- on_return _ (bind (on_translator (create_translated_video _ _ _ _)) _) _ => idtac
  | |- on_return _ (match ?x with _ => _ end) _ => destruct x; to_remux
  | |- on_return _ (bind _ _) _ => apply on_return_skip; intros; to_remux
  end.

(** X16. When the block returns, nothing is left of the directory that
    [tempfile.mkdtemp] gave: it is removed at the end of the [try] when the
    stages are done, and by the handler when one of them raised. *)
Theorem translate_block_removes_temp_dir env name tl s d :
  model_loaded (self s) = true ->
  mkdtemp env (fs s) = Return d ->
  fst (translate_block env name tl s) = Return tt ->
  gone d (fs (snd (translate_block env name tl s))).
Proof.
  intros Hml Hd. enter_try Hml Hd.
  match goal with
  | |- context [try_finally ?b _ ?s4] =>
      destruct (finally_resets_processing b s4) as [_ [-> ->]];
      assert (Hs4 : present d (fs s4)) by (cbn [fs]; apply present_create, exists_create_same)
  end.
  match goal with
  | |- context [try_except ?b ?h ?s4] =>
      assert (Hret : on_return (fun _ => True) b (fun s => gone d (fs s)));
      [| assert (Hexc : keeps_when_raising d b);
         [| specialize (Hret s4 I); specialize (Hexc s4 Hs4); unfold try_except;
            destruct (b s4) as [[[]|[cls msg|code]] s5]; cbn [fst snd] in * ] ]
  end.
  - to_remux.
    eapply on_return_bind;
      [ apply on_return_on_translator, create_translated_video_output
      | intros; apply block_end_removes ].
  - unfold_block. raising_all.
  - intros _. exact Hret.
  - intros _. apply error_handler_removes. exact Hexc.
  - discriminate.
Qed.

Lemma translate_block_removes_temp_dir_witness :
  gone "/tmp/tmpk3x9"
    (fs (snd (translate_block (Sample.failing_at Synthesize) "clip.mp4" "es" Sample.ready))).
Proof.
  apply translate_block_removes_temp_dir; reflexivity.
Defined.

(** X17. The block removes nothing but its own temporary directory: a path
    that exists before, and is not in the directory that [tempfile.mkdtemp]
    gives, exists afterwards, however the block ends. *)
Theorem translate_block_spares_other_paths env name tl s p :
  FS.exists_ p (fs s) = true ->
  (forall d, mkdtemp env (fs s) = Return d -> FS.within d p = false) ->
  FS.exists_ p (fs (snd (translate_block env name tl s))) = true.
Proof.
  intros Hp Hout. destruct (model_loaded (self s)) eqn:Hml.
  - destruct (mkdtemp env (fs s)) as [d|e] eqn:Hd.
    + specialize (Hout d eq_refl). enter_try Hml Hd.
      match goal with
      | |- context [try_finally ?b ?f ?s4] => assert (Hk : keeps p (try_finally b f))
      end.
      { unfold_block. keeps_all. }
      apply Hk. cbn [fs]. apply present_create, present_create. exact Hp.
    + unfold translate_block.
      erewrite bind_return by reflexivity.
      rewrite Hml; cbn [negb].
      erewrite bind_return by reflexivity.
      erewrite bind_return by reflexivity.
      unfold external, bind, emit, lift_outcome. cbn [fst snd trace self fs].
      rewrite Hd. exact Hp.
  - unfold translate_block. erewrite bind_return by reflexivity. rewrite Hml. exact Hp.
Qed.

Lemma translate_block_spares_other_paths_witness :
  FS.exists_ "/videos/clip.mp4"
    (fs (snd (translate_block Sample.all_fine "clip.mp4" "es"
                (mkState (self Sample.ready) ["/videos/clip.mp4"] []))))
  = true.
Proof.
  apply translate_block_spares_other_paths; [reflexivity|].
  intros d H. injection H as <-. reflexivity.
Defined.

(** ** The block of the front-end and the model *)

Lemma try_block_bind_return {S A C} (m : M S A) (k : A -> M S C)
      (h : string -> string -> M S C) (f : M S unit) (s s1 : S) (a : A) :
  m s = (Return a, s1) ->
  try_finally (try_except (bind m k) h) f s = try_finally (try_except (k a) h) f s1.
Proof. intros H. unfold try_finally, try_except, bind. rewrite H. reflexivity. Qed.

Lemma loads_app (t u : list event) : loads (t ++ u) = (loads t ++ loads u)%list.
Proof. apply flat_map_app. Qed.

(** X18. The block never calls [whisper.load_model].  The call on line 215
    is under [if not st.session_state.model_loaded], in a block that is
    entered only with [model_loaded] set and that does not change it before:
    a session without a translator gets a [VideoTranslator()] without a
    model. *)
Theorem translate_block_never_loads_model env name tl s :
  loads (trace (snd (translate_block env name tl s))) = loads (trace s).
Proof.
  destruct (model_loaded (self s)) eqn:Hml.
  - destruct (mkdtemp env (fs s)) as [d|e] eqn:Hd.
    + enter_try Hml Hd.
      erewrite try_block_bind_return by reflexivity.
      erewrite try_block_bind_return by reflexivity.
      erewrite try_block_bind_return by reflexivity.
      cbn [self translator model_loaded]. rewrite Hml. cbn [negb].
      match goal with
      | |- context [try_finally ?b ?f ?s6] =>
          assert (He : emits_upto load_mark [] (try_finally b f))
      end.
      { unfold_statements. upto_go. }
      match goal with
      | |- context [try_finally ?b ?f ?s6] => destruct (He s6) as [new [T R]]
      end.
      apply initial_part_of_nil in R. subst new.
      unfold loads. rewrite T. cbn [trace]. rewrite app_nil_r, !flat_map_app. cbn.
      rewrite !app_nil_r. reflexivity.
    + unfold translate_block.
      erewrite bind_return by reflexivity.
      rewrite Hml; cbn [negb].
      erewrite bind_return by reflexivity.
      erewrite bind_return by reflexivity.
      unfold external, bind, emit, lift_outcome. cbn [fst snd trace self fs].
      rewrite Hd. cbn [snd trace]. rewrite loads_app. apply app_nil_r.
  - unfold translate_block. erewrite bind_return by reflexivity. rewrite Hml.
    cbn. rewrite loads_app. apply app_nil_r.
Qed.

Example translate_block_without_translator :
  let s := mkState (mkSession None true false) [] [] in
  loads (trace (snd (translate_block Sample.all_fine "clip.mp4" "es" s))) = []
  /\ In (Widget "st.error"
           "Error during translation: 'NoneType' object has no attribute 'transcribe'")
        (trace (snd (translate_block Sample.all_fine "clip.mp4" "es" s))).
Proof.
  split; [vm_compute; reflexivity|]. vm_compute.
  repeat (first [left; reflexivity | right]).
Qed.

(** ** The session *)

Section SessionRules.

Variable J : session -> Prop.

Lemma session_always_ret {A} (a : A) : session_always J (ret a).
Proof. intros s H. exact H. Qed.

Lemma session_always_raise {A} (e : pyexc) : session_always J (A := A) (raise e).
Proof. intros s H. exact H. Qed.

Lemma session_always_lift_outcome {A} (r : outcome A) : session_always J (lift_outcome r).
Proof. intros s H. exact H. Qed.

Lemma session_always_emit (e : event) : session_always J (emit e).
Proof. intros s H. exact H. Qed.

Lemma session_always_get_self : session_always J get_self.
Proof. intros s H. exact H. Qed.

Lemma session_always_get_fs : session_always J get_fs.
Proof. intros s H. exact H. Qed.

Lemma session_always_set_fs (f : FS.t) : session_always J (set_fs f).
Proof. intros s H. exact H. Qed.

Lemma session_always_set_processing (b : bool) :
  (forall ss, J ss -> J (mkSession (translator ss) (model_loaded ss) b)) ->
  session_always J (set_processing b).
Proof. intros HJ s H. apply HJ. exact H. Qed.

Lemma session_always_bind {A C} (m : M (state session) A) (k : A -> M (state session) C) :
  session_always J m -> (forall a, session_always J (k a)) -> session_always J (bind m k).
Proof.
  intros Hm Hk s H. specialize (Hm s H). unfold bind.
  destruct (m s) as [[a|e] s1]; cbn [fst snd] in *; [apply Hk; exact Hm | exact Hm].
Qed.

Lemma session_always_try_except {A} (body : M (state session) A)
      (handler : string -> string -> M (state session) A) :
  session_always J body -> (forall cls msg, session_always J (handler cls msg)) ->
  session_always J (try_except body handler).
Proof.
  intros Hb Hh s H. specialize (Hb s H). unfold try_except.
  destruct (body s) as [[a|[cls msg|code]] s1]; cbn [fst snd] in *;
    [exact Hb | apply Hh; exact Hb | exact Hb].
Qed.

Lemma session_always_try_finally {A} (body : M (state session) A)
      (final : M (state session) unit) :
  session_always J body -> session_always J final -> session_always J (try_finally body final).
Proof.
  intros Hb Hf s H. specialize (Hb s H). unfold try_finally.
  destruct (body s) as [r s1]; cbn [fst snd] in *. specialize (Hf s1 Hb).
  destruct (final s1) as [[u|e] s2]; exact Hf.
Qed.

(** A method that keeps [K] of the translator keeps [J] of the session, when
    [J] asks of the translator no more than [K]. *)
Lemma session_always_on_translator {A} (K : VideoTranslator -> Prop)
      (m : M (state VideoTranslator) A) :
  stable K anything m ->
  (forall ss t, J ss -> translator ss = Some t -> K t) ->
  (forall ss t, J ss -> K t -> J (mkSession (Some t) (model_loaded ss) (processing ss))) ->
  session_always J (on_translator m).
Proof.
  intros Hm Hin Hout s H. unfold on_translator.
  destruct (translator (self s)) as [t|] eqn:Ht; [|exact H].
  assert (Hk : holds K anything (mkState t (fs s) (trace s))).
  { split; [exact (Hin _ _ H Ht) | exact I]. }
  specialize (Hm _ Hk). destruct (m (mkState t (fs s) (trace s))) as [r s1].
  cbn [fst snd self] in *. apply Hout; [exact H | exact (proj1 Hm)].
Qed.

End SessionRules.

Lemma has_model_set_model o x : has_model o -> has_model (mkVideoTranslator (Some x) (temp_dir o)).
Proof. intros _. exists x. reflexivity. Qed.

Lemma has_model_set_temp_dir o d : has_model o -> has_model (mkVideoTranslator (model o) (Some d)).
Proof. intros H. exact H. Qed.

Lemma translator_has_model_inside ss t :
  translator_has_model ss -> translator ss = Some t -> has_model t.
Proof. intros [t' [Ht H]] E. rewrite E in Ht. injection Ht as <-. exact H. Qed.

Lemma translator_has_model_update ss t :
  translator_has_model ss -> has_model t ->
  translator_has_model (mkSession (Some t) (model_loaded ss) (processing ss)).
Proof. intros _ H. exists t. split; [reflexivity | exact H]. Qed.

Lemma translator_has_model_set_processing ss b :
  translator_has_model ss ->
  translator_has_model (mkSession (translator ss) (model_loaded ss) b).
Proof. intros H. exact H. Qed.

#[local] Hint Resolve has_model_set_model has_model_set_temp_dir translator_has_model_inside
  translator_has_model_update translator_has_model_set_processing : inv.

(** The statements of the block that do not touch the session, down to the
    reads and writes of the file system. *)
Ltac unfold_widgets :=
  unfold cleanup_on_error, shutil_rmtree, widget, progress, os_path_exists, creates, external;
  cbv zeta.

Ltac session_go :=
  lazymatch goal with
  | |- session_always _ (match ?x with _ => _ end) =>
      first [ progress cbv beta iota | destruct x ]; session_go
  | |- session_always _ (bind _ _) =>
      apply session_always_bind; [ session_go | intros; session_go ]
  | |- session_always _ (ret _) => apply session_always_ret
  | |- session_always _ (raise _) => apply session_always_raise
  | |- session_always _ (lift_outcome _) => apply session_always_lift_outcome
  | |- session_always _ (emit _) => apply session_always_emit
  | |- session_always _ get_self => apply session_always_get_self
  | |- session_always _ get_fs => apply session_always_get_fs
  | |- session_always _ (set_fs _) => apply session_always_set_fs
  | |- session_always _ (set_processing _) => apply session_always_set_processing; side
  | |- session_always _ (on_translator _) =>
      apply session_always_on_translator with (K := has_model);
      [ unfold_stages; stable_go | side | side ]
  | |- session_always _ (try_except _ _) =>
      apply session_always_try_except; [ session_go | intros; session_go ]
  | |- session_always _ (try_finally _ _) =>
      apply session_always_try_finally; [ session_go | session_go ]
  end.

(** The steps of a run of the button, [Ht] telling what the translator of the
    session is. *)
Ltac run_button Ht :=
  repeat (progress (cbn [fst snd trace self fs translator model_loaded processing model
                         temp_dir]; rewrite ?Ht)).

(** X19. The button of the sidebar sets [model_loaded] only once the
    translator of the session has its model: when [whisper.load_model]
    raises, the exception leaves the block and the flag is as before. *)
Theorem load_button_outcome env s :
  match whisper_load_model env "base" with
  | Return m =>
      fst (load_button env s) = Return tt
      /\ model_loaded (self (snd (load_button env s))) = true
      /\ exists t, translator (self (snd (load_button env s))) = Some t /\ model t = Some m
  | Raise e =>
      fst (load_button env s) = Raise e
      /\ model_loaded (self (snd (load_button env s))) = model_loaded (self s)
  end.
Proof.
  unfold load_button, on_translator, load_model, try_finally, try_except, set_model,
    set_translator, set_model_loaded, widget, external, print, bind, emit, lift_outcome,
    get_self, set_self, ret, raise.
  destruct (translator (self s)) as [t|] eqn:Ht; run_button Ht;
    destruct (whisper_load_model env "base") as [m|[c msg|code]]; run_button Ht;
    repeat split; eexists; split; reflexivity.
Qed.

Lemma load_button_model env s :
  session_ready (self s) -> session_ready (self (snd (load_button env s))).
Proof.
  intros Hready.
  unfold load_button, on_translator, load_model, try_finally, try_except, set_model,
    set_translator, set_model_loaded, widget, external, print, bind, emit, lift_outcome,
    get_self, set_self, ret, raise.
  destruct (translator (self s)) as [t|] eqn:Ht; run_button Ht;
    destruct (whisper_load_model env "base") as [m|[c msg|code]]; run_button Ht;
    intros Hml; cbn [model_loaded translator] in Hml |- *;
    try (eexists; eexists; split; reflexivity);
    destruct (Hready Hml) as [t' [m' [Ht' Hm']]]; try congruence;
    exists t', m'; split; congruence.
Qed.

(** X20. [model_loaded] tells the truth in every session that the two
    buttons can reach: if the flag is set only with a translator that has a
    model, it is so after "Load Whisper Model" and after "Translate Video",
    however they end. *)
Theorem session_stays_ready env name tl s :
  session_ready (self s) ->
  session_ready (self (snd (load_button env s)))
  /\ session_ready (self (snd (translate_block env name tl s))).
Proof.
  intros Hready. split.
  - apply load_button_model. exact Hready.
  - destruct (model_loaded (self s)) eqn:Hml.
    + destruct (Hready Hml) as [t [m [Ht Hm]]]. intros _.
      destruct (mkdtemp env (fs s)) as [d|e] eqn:Hd.
      * enter_try Hml Hd.
        erewrite try_block_bind_return by reflexivity.
        erewrite try_block_bind_return by reflexivity.
        erewrite try_block_bind_return by reflexivity.
        cbn [self translator model_loaded]. rewrite Ht.
        match goal with
        | |- context [try_finally ?b ?f ?s6] =>
            assert (Hk : session_always translator_has_model (try_finally b f))
        end.
        { unfold_widgets. session_go. }
        match goal with
        | |- context [try_finally ?b ?f ?s6] =>
            destruct (Hk s6) as [t' [Ht' [m' Hm']]]
        end.
        { exists t. split; [reflexivity | exists m; exact Hm]. }
        exists t', m'. split; assumption.
      * exists t, m. unfold translate_block.
        erewrite bind_return by reflexivity.
        rewrite Hml; cbn [negb].
        erewrite bind_return by reflexivity.
        erewrite bind_return by reflexivity.
        unfold external, bind, emit, lift_outcome. cbn [fst snd trace self fs].
        rewrite Hd. split; assumption.
    + intros H. exfalso. revert H. unfold translate_block.
      erewrite bind_return by reflexivity. rewrite Hml. cbn. rewrite Hml. discriminate.
Qed.

Lemma session_stays_ready_witness :
  exists t m,
    translator (self (snd (translate_block (Sample.failing_at Transcribe) "clip.mp4" "es"
                             Sample.ready))) = Some t
    /\ model t = Some m.
Proof.
  apply (proj2 (@session_stays_ready (Sample.failing_at Transcribe) "clip.mp4" "es"
                  Sample.ready
                  (fun _ => ex_intro _ _ (ex_intro _ _ (conj eq_refl eq_refl))))).
  reflexivity.
Defined.

(** ** The block of the front-end when all goes well *)

Lemma on_translator_returns {A} d (m : M (state VideoTranslator) A) (s : state session) :
  total (is_ready d) (present d) m -> usable d s ->
  exists a s', on_translator m s = (Return a, s') /\ usable d s'.
Proof.
  intros Hm [[t [Ht Hr]] Hp]. unfold on_translator. rewrite Ht.
  destruct (Hm (mkState t (fs s) (trace s))) as [[a Ha] [HJ HF]]; [split; assumption|].
  destruct (m (mkState t (fs s) (trace s))) as [r s1]. cbn [fst snd] in *. subst r.
  exists a. eexists. split; [reflexivity|].
  split; [exists (self s1); split; [reflexivity | exact HJ] | exact HF].
Qed.

Ltac stage_step Hc d H :=
  match goal with
  | |- context [try_finally (try_except (bind (on_translator ?m) _) _) _ ?S] =>
      let a := fresh "a" in
      let s' := fresh "s" in
      let Hr := fresh "Hr" in
      let H' := fresh "Hu" in
      let Htot := fresh "Htot" in
      assert (Htot : total (is_ready d) (present d) m) by (unfold_stages; total_go);
      destruct (@on_translator_returns _ d m S Htot H) as [a [s' [Hr H']]];
      clear Htot;
      erewrite try_block_bind_return by exact Hr
  end.

Ltac widget_step :=
  erewrite try_block_bind_return by reflexivity; cbn [self fs trace translator model_loaded processing].

Lemma shutil_rmtree_returns {O} d (s : state O) :
  FS.exists_ d (fs s) = true ->
  shutil_rmtree (Some d) s
  = (Return tt,
     mkState (self s) (filter (fun p => negb (FS.within d p)) (fs s))
       (trace s ++ [Call (Rmtree d)])).
Proof.
  intros H.
  unfold shutil_rmtree, external, bind, emit, lift_outcome, get_fs, set_fs, ret, FS.rmtree.
  cbn [fst snd trace self fs]. rewrite H. reflexivity.
Qed.

(** X21. With a ready session and libraries that return, the block goes to
    its end: it returns, and the last things it does are to show the success
    message, the translated video and the download button, to remove its
    directory and to clear the progress display. *)
Theorem translate_block_succeeds env name tl s d :
  cooperative env ->
  model_loaded (self s) = true ->
  translator_has_model (self s) ->
  mkdtemp env (fs s) = Return d ->
  fst (translate_block env name tl s) = Return tt
  /\ exists before,
       trace (snd (translate_block env name tl s))
       = (before
          ++ success_display d
               (PyPath.os_path_join d (translated_name (PyPath.of_string name) tl))
               (translated_name (PyPath.of_string name) tl))%list.
Proof.
  intros Hc Hml [t [Ht [m Hm]]] Hd. enter_try Hml Hd.
  do 3 widget_step.
  cbn [self translator model_loaded]. rewrite Ht.
  do 4 widget_step.
  match goal with
  | |- context [try_finally _ _ ?S] => assert (Hu : usable d S)
  end.
  { split.
    - eexists. split; [reflexivity|]. split; [reflexivity | exists m; exact Hm].
    - cbn [fs]. apply present_create, exists_create_same. }
  cbn [self fs trace] in Hu.
  stage_step Hc d Hu. do 2 widget_step.
  stage_step Hc d Hu0. destruct a0 as [text segments]. do 6 widget_step.
  stage_step Hc d Hu1. do 5 widget_step.
  stage_step Hc d Hu2. do 2 widget_step.
  stage_step Hc d Hu3.
  match type of Hr3 with
  | on_translator (create_translated_video _ ?v ?a ?out) ?S = _ =>
      pose proof (@on_return_on_translator _ _ (present out)
                    (@create_translated_video_output env v a out) S I) as Hout;
      rewrite Hr3 in Hout; cbn [fst snd] in Hout
  end.
  do 2 widget_step.
  unfold present in Hout.
  erewrite try_block_bind_return
    by (unfold os_path_exists, bind, get_fs, ret; cbn [fst snd fs]; rewrite Hout; reflexivity).
  cbv iota. do 4 widget_step.
  destruct Hu4 as [_ Hp]. unfold present in Hp.
  unfold try_finally, try_except.
  erewrite shutil_rmtree_returns by exact Hp.
  unfold set_processing, widget, bind, emit, get_self, set_self.
  cbn [fst snd trace self fs].
  split; [reflexivity|].
  rewrite <- !app_assoc. cbn [app].
  match goal with
  | |- exists before, (?t ++ ?a :: ?b :: _)%list = _ => exists (t ++ [a; b])%list
  end.
  rewrite <- app_assoc. reflexivity.
Qed.

Lemma translate_block_succeeds_witness :
  fst (translate_block Sample.all_fine "clip.mp4" "sv" Sample.ready) = Return tt
  /\ exists before,
       trace (snd (translate_block Sample.all_fine "clip.mp4" "sv" Sample.ready))
       = (before
          ++ success_display "/tmp/tmpk3x9" "/tmp/tmpk3x9/clip_translated_sv.mp4"
               "clip_translated_sv.mp4")%list.
Proof.
  apply (@translate_block_succeeds Sample.all_fine "clip.mp4" "sv" Sample.ready "/tmp/tmpk3x9").
  - exact all_fine_cooperative.
  - reflexivity.
  - eexists. split; [reflexivity|]. eexists. reflexivity.
  - reflexivity.
Defined.

(** ** The block of the front-end, checkpoint by checkpoint *)

Lemma on_translator_runs {A B} (f : event -> list B) d (l : list B)
      (m : M (state VideoTranslator) A) (s : state session) :
  total (is_ready d) (present d) m -> emits f l m -> usable d s ->
  exists a s', on_translator m s = (Return a, s') /\ usable d s'
               /\ flat_map f (trace s') = (flat_map f (trace s) ++ l)%list.
Proof.
  intros Hm He [[t [Ht Hr]] Hp]. unfold on_translator. rewrite Ht.
  destruct (Hm (mkState t (fs s) (trace s))) as [[a Ha] [HJ HF]]; [split; assumption|].
  destruct (He (mkState t (fs s) (trace s))) as [new [T R]].
  destruct (m (mkState t (fs s) (trace s))) as [r s1]. cbn [fst snd trace] in *. subst r new.
  exists a. eexists. split; [reflexivity|].
  split; [split; [exists (self s1); split; [reflexivity | exact HJ] | exact HF] | exact T].
Qed.

Ltac mark_step f d H :=
  match goal with
  | |- context [try_finally (try_except (bind (on_translator ?m) _) _) _ ?S] =>
      let a := fresh "a" in
      let s' := fresh "s" in
      let Hr := fresh "Hr" in
      let H' := fresh "Hu" in
      let Hm := fresh "Hm" in
      let Htot := fresh "Htot" in
      let Hem := fresh "Hem" in
      assert (Htot : total (is_ready d) (present d) m) by (unfold_stages; total_go);
      eassert (Hem : emits f _ m) by (unfold_statements; emits_go);
      destruct (@on_translator_runs _ _ f d _ m S Htot Hem H) as [a [s' [Hr [H' Hm]]]];
      clear Htot Hem;
      erewrite try_block_bind_return by exact Hr
  end.

Lemma translate_block_checkpoints env name tl s :
  cooperative env ->
  model_loaded (self s) = true ->
  translator_has_model (self s) ->
  fst (translate_block env name tl s) = Return tt
  /\ checkpoint_marks (trace (snd (translate_block env name tl s)))
     = (checkpoint_marks (trace s) ++ block_marks)%list.
Proof.
  intros Hc Hml [t [Ht [m Hm]]]. destruct (coop_mkdtemp Hc (fs s)) as [d Hd].
  enter_try Hml Hd.
  do 3 widget_step.
  cbn [self translator model_loaded]. rewrite Ht.
  do 4 widget_step.
  match goal with
  | |- context [try_finally _ _ ?S] => assert (Hu : usable d S)
  end.
  { split.
    - eexists. split; [reflexivity|]. split; [reflexivity | exists m; exact Hm].
    - cbn [fs]. apply present_create, exists_create_same. }
  mark_step checkpoint_mark d Hu. do 2 widget_step.
  mark_step checkpoint_mark d Hu0. destruct a0 as [text segments]. do 6 widget_step.
  mark_step checkpoint_mark d Hu1. do 5 widget_step.
  mark_step checkpoint_mark d Hu2. do 2 widget_step.
  mark_step checkpoint_mark d Hu3.
  match type of Hr3 with
  | on_translator (create_translated_video _ ?v ?a ?out) ?S = _ =>
      pose proof (@on_return_on_translator _ _ (present out)
                    (@create_translated_video_output env v a out) S I) as Hout;
      rewrite Hr3 in Hout; cbn [fst snd] in Hout
  end.
  do 2 widget_step.
  unfold present in Hout.
  erewrite try_block_bind_return
    by (unfold os_path_exists, bind, get_fs, ret; cbn [fst snd fs]; rewrite Hout; reflexivity).
  cbv iota. do 4 widget_step.
  destruct Hu4 as [_ Hp]. unfold present in Hp.
  unfold try_finally, try_except.
  erewrite shutil_rmtree_returns by exact Hp.
  unfold set_processing, widget, bind, emit, get_self, set_self.
  cbn [fst snd trace self fs].
  split; [reflexivity|].
  unfold checkpoint_marks. cbn [trace] in *.
  repeat rewrite flat_map_app in *.
  rewrite Hm4, Hm3, Hm2, Hm1, Hm0.
  cbn [flat_map checkpoint_mark app String.eqb Ascii.eqb Bool.eqb].
  rewrite <- !app_assoc. reflexivity.
Qed.

Lemma translate_block_emits_checkpoints env name tl :
  emits_upto checkpoint_mark block_marks (translate_block env name tl).
Proof. unfold translate_block. unfold_statements. upto_go. Qed.

Lemma progress_values_of_checkpoints (t : list event) :
  progress_values t = flat_map progress_value (checkpoint_marks t).
Proof.
  unfold progress_values, checkpoint_marks. induction t as [|e t IH]; [reflexivity|].
  cbn [flat_map]. rewrite flat_map_app, <- IH. f_equal.
  destruct e; try reflexivity. cbn. destruct (name =? "st.success"); reflexivity.
Qed.


(** C8. In every run of the block the values given to the progress bar and
    the stages alternate as in [block_marks]: 10 before Extract, 30 before
    Transcribe, 50 before Translate, 70 before Synthesize, 85 before Remux,
    100 after it, then the success message; a run adds an initial part of
    this, so the values are an initial part of 10, 30, 50, 70, 85, 100, and
    a run that shows the success message has added all of it.  With a
    session that is ready and external libraries that return, the block
    returns and does add all of it.  ([new] is what the run adds.) *)
Theorem translate_block_progress env name tl s :
  exists new,
    checkpoint_marks (trace (snd (translate_block env name tl s)))
    = (checkpoint_marks (trace s) ++ new)%list
    /\ progress_values (trace (snd (translate_block env name tl s)))
       = (progress_values (trace s) ++ flat_map progress_value new)%list
    /\ initial_part new block_marks
    /\ initial_part (flat_map progress_value new) checkpoints
    /\ flat_map progress_value block_marks = checkpoints
    /\ (In success_banner new -> new = block_marks)
    /\ (cooperative env -> model_loaded (self s) = true -> translator_has_model (self s) ->
        fst (translate_block env name tl s) = Return tt /\ new = block_marks).
Proof.
  destruct (translate_block_emits_checkpoints env name tl s) as [new [T R]].
  exists new. split; [exact T|].
  split; [|split; [exact R|split; [|split; [reflexivity|split]]]].
  - rewrite (progress_values_of_checkpoints (trace s)).
    rewrite (progress_values_of_checkpoints (trace (snd (translate_block env name tl s)))).
    unfold checkpoint_marks in *. rewrite T. apply flat_map_app.
  - apply (initial_part_flat_map progress_value) in R. exact R.
  - intros Hin.
    apply (@initial_part_with_last _ (removelast block_marks) new success_banner);
      [|exact R|exact Hin].
    cbn. intros H. repeat (destruct H as [H | H]; [discriminate H|]). exact H.
  - intros Hc Hml Hready.
    destruct (@translate_block_checkpoints env name tl s Hc Hml Hready) as [Hret Hfull].
    split; [exact Hret|].
    unfold checkpoint_marks in *. rewrite T in Hfull. apply app_inv_head in Hfull. exact Hfull.
Qed.

Lemma translate_block_progress_witness :
  exists new,
    progress_values (trace (snd (translate_block Sample.all_fine "clip.mp4" "sv" Sample.ready)))
    = flat_map progress_value new
    /\ new = block_marks.
Proof.
  destruct (translate_block_progress Sample.all_fine "clip.mp4" "sv" Sample.ready)
    as [new [_ [V [_ [_ [_ [_ H]]]]]]].
  exists new. split; [exact V|].
  apply H; [exact all_fine_cooperative | reflexivity|].
  eexists. split; [reflexivity|]. eexists. reflexivity.
Defined.




(** ** The languages on offer *)

(** X22. The codes that the selectbox offers are their own look-up keys in
    [generate_audio], and the table of voices has an entry for all of them but
    nine: for Swedish, Norwegian, Danish, Finnish, Czech, Hungarian, Romanian,
    Greek and Hebrew the voice has to be found in the catalog of edge_tts. *)
Theorem selectbox_languages_voice (l : string) :
  In l language_options ->
  lang_code_of l = l
  /\ PyDict.mem l voice_map
     = negb (existsb (String.eqb l) ["sv"; "no"; "da"; "fi"; "cs"; "hu"; "ro"; "el"; "he"]).
Proof.
  intros H. cbn in H.
  repeat (destruct H as [<-|H]; [split; reflexivity|]). contradiction.
Qed.

Lemma selectbox_languages_voice_witness :
  lang_code_of "no" = "no" /\ PyDict.mem "no" voice_map = false.
Proof.
  apply (@selectbox_languages_voice "no"). cbn. do 16 right. left. reflexivity.
Defined.

(** ** The main area of the page *)

Lemma translate_block_emits_no_warning env name tl :
  emits_upto warning_mark [] (translate_block env name tl).
Proof. unfold translate_block. unfold_statements. upto_go. Qed.

(** X23. The warning of line 302 is never shown: its branch comes after
    [elif uploaded_file is None] and [elif not target_language], one of which
    holds whenever the first condition of the chain fails. *)
Theorem main_area_never_warns env uploaded_file tl pressed s :
  warnings (trace (snd (main_area env uploaded_file tl pressed s))) = warnings (trace s).
Proof.
  unfold main_area, warnings.
  destruct uploaded_file as [name|]; destruct (truthy tl); cbn [andb negb].
  - unfold widget at 1. unfold bind at 1, emit at 1. cbn [fst snd].
    destruct pressed.
    + destruct (translate_block_emits_no_warning env name tl
                  (mkState (self s) (fs s) (trace s ++ [Widget "st.button" "Translate Video"])))
        as [new [T R]].
      apply initial_part_of_nil in R. subst new.
      rewrite T. cbn [trace]. rewrite app_nil_r, flat_map_app. apply app_nil_r.
    + cbn [ret snd trace]. rewrite flat_map_app. apply app_nil_r.
  - cbn. rewrite flat_map_app. apply app_nil_r.
  - cbn. rewrite flat_map_app. apply app_nil_r.
  - cbn. rewrite flat_map_app. apply app_nil_r.
Qed.

(** ** The excerpts shown *)

Lemma take_append_exact (a b : string) : PyStr.take (String.length a) (a ++ b) = a.
Proof.
  unfold PyStr.take. induction a as [|c a IH]; cbn.
  - destruct b; reflexivity.
  - rewrite IH. reflexivity.
Qed.

(** X24. The excerpt of a text that [translate_video] prints (100) and that
    the front-end writes (500) has at most three characters more than the
    bound, and begins as the text does. *)
Theorem excerpt_length (n : nat) (text : string) :
  String.length (excerpt n text)
  = (if (n <? String.length text)%nat then n + 3 else String.length text)
  /\ PyStr.take n (excerpt n text) = PyStr.take n text.
Proof.
  unfold excerpt. destruct (Nat.ltb_spec n (String.length text)) as [H|H].
  - assert (Hl : String.length (PyStr.take n text) = n) by (apply length_take; lia).
    split.
    + rewrite length_append, Hl. reflexivity.
    + rewrite <- Hl at 1. apply take_append_exact.
  - split; reflexivity.
Qed.

Example excerpt_of_a_long_text :
  excerpt 5 "hello world" = "hello..." /\ excerpt 100 "hello world" = "hello world".
Proof. split; reflexivity. Qed.
